(** * Raster pipeline linker and executor entry points

    A shallow embedding of [SkRasterPipeline.cpp] (with the declarations of
    [SkRasterPipeline.h], [SkOpts.h] and [SkOpts.cpp]): the stage list, the
    linker [build_pipeline] that writes a program backwards into a caller
    buffer, and the two C entry points.

    Memory is explicit.  Stage-list nodes live in a heap indexed by address,
    so that lists sharing a tail share nodes; the program buffer is a finite
    map from slot addresses to the [void*] values stored there.  Nodes and
    buffer slots are distinct objects and are kept in two maps.  A pointer is
    an integer address and [0] is the null pointer.  Reading a node that is
    not allocated and writing a slot that is not allocated are undefined
    behaviour, modelled by [None]. *)

From Stdlib Require Import ZArith Lia List Recdef.
From stdpp Require Import base option gmap list list_numbers.

Open Scope Z_scope.

(** ** Data model *)

(** [void*], [void**], [StageList*] and function pointers: an address,
    [0] being [nullptr].  Slot addresses count in units of one slot. *)
Abbreviation ptr := Z (only parsing).

(** [enum StockStage], the expansion of [SK_RASTER_PIPELINE_STAGES]. *)
Inductive StockStage : Set :=
  | move_src_dst | move_dst_src
  | clamp_0 | clamp_1 | clamp_a | clamp_gamut
  | unpremul | premul | premul_dst
  | black_color | white_color
  | uniform_color | unbounded_uniform_color | uniform_color_dst
  | seed_shader | dither
  | load_8888 | load_8888_dst | store_8888 | gather_8888
  | bilerp_clamp_8888 | bicubic_clamp_8888
  | load_src | store_src | store_src_a | load_dst | store_dst
  | scale_u8 | scale_1_float | scale_native
  | lerp_u8 | lerp_1_float | lerp_native
  | dstatop | dstin | dstout | dstover
  | srcatop | srcin | srcout | srcover
  | clear | modulate | multiply | plus_ | screen | xor_
  | colorburn | colordodge | darken | difference
  | exclusion | hardlight | lighten | overlay | softlight
  | hue | saturation | color | luminosity
  | srcover_rgba_8888
  | matrix_translate | matrix_scale_translate
  | matrix_2x3 | matrix_3x3 | matrix_3x4 | matrix_4x5 | matrix_4x3
  | mirror_x | repeat_x
  | mirror_y | repeat_y
  | negate_x
  | bilinear | bicubic
  | bilinear_nx | bilinear_px | bilinear_ny | bilinear_py
  | bicubic_n3x | bicubic_n1x | bicubic_p1x | bicubic_p3x
  | bicubic_n3y | bicubic_n1y | bicubic_p1y | bicubic_p3y
  | save_xy | accumulate
  | clamp_x_1 | mirror_x_1 | repeat_x_1
  | evenly_spaced_gradient
  | gradient
  | evenly_spaced_2_stop_gradient
  | xy_to_unit_angle
  | xy_to_radius
  | xy_to_2pt_conical_strip
  | xy_to_2pt_conical_focal_on_circle
  | xy_to_2pt_conical_well_behaved
  | xy_to_2pt_conical_smaller
  | xy_to_2pt_conical_greater
  | alter_2pt_conical_compensate_focal
  | alter_2pt_conical_unswap
  | mask_2pt_conical_nan
  | mask_2pt_conical_degenerates | apply_vector_mask.

(** [struct StageList]. *)
Record StageList : Set := mkStageList {
  prev  : ptr;
  stage : StockStage;
  ctx   : ptr
}.

(** [namespace SkOpts]: the two stage tables, the two sentinels and the two
    entry points.  Their values come from [SkRasterPipeline_opts.h], so they
    are taken as given; a null table entry is [0]. *)
Record SkOpts : Type := mkSkOpts {
  stages_highp         : StockStage -> ptr;
  just_return_highp    : ptr;
  stages_lowp          : StockStage -> ptr;
  just_return_lowp     : ptr;
  start_pipeline_highp : ptr;
  start_pipeline_lowp  : ptr
}.

(** The store: stage-list nodes by address, buffer slots by address. *)
Record Mem : Type := mkMem {
  nodes : gmap Z StageList;
  slots : gmap Z Z
}.

(** ** A state monad with undefined behaviour *)

Definition M (A : Type) : Type := Mem -> option (A * Mem).

Definition ret {A} (a : A) : M A := fun m => Some (a, m).

Definition bind {A B} (c : M A) (k : A -> M B) : M B :=
  fun m => match c m with
           | Some (a, m') => k a m'
           | None => None
           end.

Notation "x <- c ;; k" := (bind c (fun x => k))
  (at level 100, c at next level, right associativity).

(** [*st], for a [StageList* st]. *)
Definition load_node (st : ptr) : M StageList :=
  fun m => match nodes m !! st with
           | Some nd => Some (nd, m)
           | None => None
           end.

(** [*--ip = v]: returns the decremented cursor. *)
Definition push (ip : ptr) (v : ptr) : M ptr :=
  fun m => match slots m !! (ip - 1) with
           | Some _ => Some (ip - 1, mkMem (nodes m) (<[ip - 1 := v]> (slots m)))
           | None => None
           end.

(** [if (st->ctx) { *--ip = st->ctx; }] *)
Definition push_ctx (ip : ptr) (nd : StageList) : M ptr :=
  if ctx nd =? 0 then ret ip else push ip (ctx nd).

(** ** [build_pipeline] *)

Section Linker.

Variable opts : SkOpts.

(** The first loop of [build_pipeline].  [fuel] bounds the number of loop
    tests, since the list is read from the heap. *)
Fixpoint lowp_loop (fuel : nat) (reset_point st ip : ptr) : M ptr :=
  match fuel with
  | 0%nat => fun _ => None
  | S fuel' =>
      if st =? 0 then ret ip
      else
        nd <- load_node st ;;
        let fn := stages_lowp opts (stage nd) in
        if fn =? 0 then ret reset_point
        else
          ip <- push_ctx ip nd ;;
          ip <- push ip fn ;;
          lowp_loop fuel' reset_point (prev nd) ip
  end.

(** The second loop of [build_pipeline]. *)
Fixpoint highp_loop (fuel : nat) (st ip : ptr) : M ptr :=
  match fuel with
  | 0%nat => fun _ => None
  | S fuel' =>
      if st =? 0 then ret ip
      else
        nd <- load_node st ;;
        ip <- push_ctx ip nd ;;
        ip <- push ip (stages_highp opts (stage nd)) ;;
        highp_loop fuel' (prev nd) ip
  end.

(** The body of [build_pipeline]: the entry point it returns, paired with the
    final value of its local write cursor [ip], which is where the program
    starts. *)
Definition build_pipeline_ip (fuel : nat) (stages ip : ptr) : M (ptr * ptr) :=
  let reset_point := ip in
  ip <- push ip (just_return_lowp opts) ;;
  ip <- lowp_loop fuel reset_point stages ip ;;
  if negb (ip =? reset_point) then ret (start_pipeline_lowp opts, ip)
  else
    ip <- push ip (just_return_highp opts) ;;
    ip <- highp_loop fuel stages ip ;;
    ret (start_pipeline_highp opts, ip).

(** [build_pipeline] returns the entry point only. *)
Definition build_pipeline (fuel : nat) (stages ip : ptr) : M ptr :=
  r <- build_pipeline_ip fuel stages ip ;;
  ret (fst r).

(** [skia_pipe_raster_build_pipeline]. *)
Definition skia_pipe_raster_build_pipeline (fuel : nat) (stages ip : ptr)
  : M bool :=
  fn <- build_pipeline fuel stages ip ;;
  ret (fn =? start_pipeline_highp opts).

End Linker.

(** ** Stage lists in the heap *)

(** [list_at h p l]: following [prev] from [p] in heap [h] visits exactly
    the nodes [l], most recently appended first, and then reaches null.
    The append order of the list is [rev l]. *)
Fixpoint list_at (h : gmap Z StageList) (p : ptr) (l : list StageList) : Prop :=
  match l with
  | [] => p = 0
  | nd :: l' => p <> 0 /\ h !! p = Some nd /\ list_at h (prev nd) l'
  end.

(** Slots one stage takes in a program, and slots a list of stages takes. *)
Definition slots_of (nd : StageList) : Z := if ctx nd =? 0 then 1 else 2.

Fixpoint slot_count (l : list StageList) : Z :=
  match l with
  | [] => 0
  | nd :: l' => slots_of nd + slot_count l'
  end.

(** ** Programs *)

(** The slots of one stage, in increasing address order: the function
    pointer, then the parameter pointer when there is one. *)
Definition entry (tbl : StockStage -> ptr) (nd : StageList) : list ptr :=
  tbl (stage nd) :: (if ctx nd =? 0 then [] else [ctx nd]).

(** The program of a list [l] (given most recent first) for one tier: the
    entries of the stages in append order, then the sentinel. *)
Definition program_of (tbl : StockStage -> ptr) (sentinel : ptr)
    (l : list StageList) : list ptr :=
  flat_map (entry tbl) (rev l) ++ [sentinel].

(** [region s a vs]: reading the slots of [s] forward from address [a] gives
    exactly the values [vs]. *)
Fixpoint region (s : gmap Z Z) (a : ptr) (vs : list ptr) : Prop :=
  match vs with
  | [] => True
  | v :: vs' => s !! a = Some v /\ region s (a + 1) vs'
  end.

(** Every slot of [lo, hi) is allocated. *)
Definition allocated (s : gmap Z Z) (lo hi : ptr) : Prop :=
  forall a, lo <= a < hi -> is_Some (s !! a).

(** What one loop iteration does to the buffer: the parameter pointer, when
    there is one, then the function pointer, each one slot lower. *)
Definition write_entry (tbl : StockStage -> ptr) (nd : StageList)
    (ip : ptr) (s : gmap Z Z) : ptr * gmap Z Z :=
  let '(ip1, s1) :=
    if ctx nd =? 0 then (ip, s) else (ip - 1, <[ip - 1 := ctx nd]> s) in
  (ip1 - 1, <[ip1 - 1 := tbl (stage nd)]> s1).

(** What a linking loop does to the buffer when it runs over the nodes [l]
    without stopping: the final cursor and the final slots. *)
Fixpoint write_entries (tbl : StockStage -> ptr) (l : list StageList)
    (ip : ptr) (s : gmap Z Z) : ptr * gmap Z Z :=
  match l with
  | [] => (ip, s)
  | nd :: l' =>
      let '(ip', s') := write_entry tbl nd ip s in
      write_entries tbl l' ip' s'
  end.

(** One linking pass over the nodes [l] from the buffer end [ip]: the
    sentinel, then the entries. *)
Definition link (tbl : StockStage -> ptr) (sentinel : ptr)
    (l : list StageList) (ip : ptr) (s : gmap Z Z) : ptr * gmap Z Z :=
  write_entries tbl l (ip - 1) (<[ip - 1 := sentinel]> s).

(** Does the Reduced tier implement the stage of this node? *)
Definition has_lowp (opts : SkOpts) (nd : StageList) : bool :=
  negb (stages_lowp opts (stage nd) =? 0).

(** The nodes the first loop links before it stops. *)
Fixpoint lowp_prefix (opts : SkOpts) (l : list StageList) : list StageList :=
  match l with
  | [] => []
  | nd :: l' => if has_lowp opts nd then nd :: lowp_prefix opts l' else []
  end.

(** The slots after the first, Reduced-tier pass; after a failed attempt
    they hold what that attempt wrote before it stopped. *)
Definition lowp_pass (opts : SkOpts) (l : list StageList) (ip : ptr)
    (s : gmap Z Z) : ptr * gmap Z Z :=
  link (stages_lowp opts) (just_return_lowp opts) (lowp_prefix opts l) ip s.

(** The slots after the second, Full-tier pass. *)
Definition highp_pass (opts : SkOpts) (l : list StageList) (ip : ptr)
    (s : gmap Z Z) : ptr * gmap Z Z :=
  link (stages_highp opts) (just_return_highp opts) l ip s.

(** A computation that leaves the node heap as it found it, whenever it
    returns. *)
Definition keeps_nodes {A} (c : M A) : Prop :=
  forall m r m', c m = Some (r, m') -> nodes m' = nodes m.

(** ** Tiers *)

(** [true] is the Full tier (highp), [false] the Reduced tier (lowp), as in
    the [bool] the C entry points exchange. *)
Definition entry_point (opts : SkOpts) (highp : bool) : ptr :=
  if highp then start_pipeline_highp opts else start_pipeline_lowp opts.

Definition table_of (opts : SkOpts) (highp : bool) : StockStage -> ptr :=
  if highp then stages_highp opts else stages_lowp opts.

Definition sentinel_of (opts : SkOpts) (highp : bool) : ptr :=
  if highp then just_return_highp opts else just_return_lowp opts.

(** The tier the list calls for: Full as soon as one stage has no
    Reduced-tier implementation. *)
Definition needs_highp (opts : SkOpts) (l : list StageList) : bool :=
  negb (forallb (has_lowp opts) l).

(** ** [skia_pipe_raster_run_pipeline] *)

(** Conversion to [unsigned int], 32 bits wide, and its addition. *)
Definition to_uint (z : Z) : Z := z mod 2 ^ 32.

Definition uint_add (a b : Z) : Z := to_uint (a + b).

(** A call through one of the two entry-point pointers, with its five
    arguments. *)
Inductive call : Set :=
  | Call (fn : ptr) (x0 y0 x1 y1 : Z) (program : ptr).

(** [skia_pipe_raster_run_pipeline], as the calls it makes.  Its four
    coordinates are [unsigned int] parameters, so every argument is converted
    on entry; the sums are computed in [unsigned int] and then widened to
    [size_t], which keeps their value. *)
Definition skia_pipe_raster_run_pipeline (opts : SkOpts) (program : ptr)
    (is_highp : bool) (x y w h : Z) : list call :=
  let x := to_uint x in
  let y := to_uint y in
  let w := to_uint w in
  let h := to_uint h in
  if is_highp
  then [Call (start_pipeline_highp opts) x y (uint_add x w) (uint_add y h) program]
  else [Call (start_pipeline_lowp opts) x y (uint_add x w) (uint_add y h) program].

(** ** The executor loop *)

(** One invocation of the program: the first column, the row and the number
    of columns it covers. *)
Inductive chunk : Set :=
  | Chunk (x y width : Z).

(** Modelled from the spec: the column loop of the tier entry points
    [start_pipeline], whose code ([SkRasterPipeline_opts.h]) is not among the
    sources.  Section 4.3: within a row, columns are processed in chunks of
    the tier's batch width [N]; remaining columns narrower than a batch are
    processed as one further tail chunk. *)
Function row_chunks (N : positive) (y xlimit dx : Z)
    {measure (fun dx => Z.to_nat (xlimit - dx)) dx} : list chunk :=
  if dx + Z.pos N <=? xlimit
  then Chunk dx y (Z.pos N) :: row_chunks N y xlimit (dx + Z.pos N)
  else if xlimit - dx =? 0 then [] else [Chunk dx y (xlimit - dx)].
Proof.
  intros N y xlimit dx Hle. apply Z.leb_le in Hle. lia.
Defined.

(** Modelled from the spec: the row loop of [start_pipeline].  Section 4.3:
    rows [y0..y1] are iterated top to bottom. *)
Definition start_pipeline (N : positive) (x0 y0 x1 y1 : Z) : list chunk :=
  flat_map (fun y => row_chunks N y x1 x0) (seqZ y0 (y1 - y0)).

(** The chunks of one row as the specification counts them: [W / N] full
    chunks, then a tail of [W mod N] columns when that is not zero. *)
Definition row_chunks_spec (N : positive) (y x0 x1 : Z) : list chunk :=
  let W := x1 - x0 in
  map (fun i => Chunk (x0 + i * Z.pos N) y (Z.pos N)) (seqZ 0 (W / Z.pos N)) ++
  (if W mod Z.pos N =? 0 then []
   else [Chunk (x0 + W / Z.pos N * Z.pos N) y (W mod Z.pos N)]).

(** ** A worked example *)

(** A table in which [dither] has no Reduced-tier implementation. *)
Definition ex_opts : SkOpts :=
  mkSkOpts
    (fun st => match st with
               | load_8888 => 1101 | premul => 1102 | store_8888 => 1103
               | dither => 1104 | _ => 1100
               end)
    1001
    (fun st => match st with
               | load_8888 => 2101 | premul => 2102 | store_8888 => 2103
               | dither => 0 | _ => 2100
               end)
    2001
    1000
    2000.

(** Appending A = [load_8888] with parameters at [7001], then B = [premul]
    without parameters, then C = [store_8888] with parameters at [7002]; and,
    on the same first two nodes, D = [dither] with parameters at [7003]. *)
Definition ex_A : StageList := mkStageList 0 load_8888 7001.
Definition ex_B : StageList := mkStageList 100 premul 0.
Definition ex_C : StageList := mkStageList 200 store_8888 7002.
Definition ex_D : StageList := mkStageList 200 dither 7003.

(** E = [store_8888] with parameters at [7004], appended after D. *)
Definition ex_E : StageList := mkStageList 400 store_8888 7004.

Definition ex_nodes : gmap Z StageList :=
  <[100 := ex_A]> (<[200 := ex_B]> (<[300 := ex_C]> (<[400 := ex_D]>
  (<[500 := ex_E]> ∅)))).

(** [alloc lo n s]: the slots [lo .. lo + n - 1] allocated on top of [s]. *)
Fixpoint alloc (lo : ptr) (n : nat) (s : gmap Z Z) : gmap Z Z :=
  match n with
  | 0%nat => s
  | S n' => <[lo := 0]> (alloc (lo + 1) n' s)
  end.

(** Two buffers of seven slots, ending at [5007] and at [6007]. *)
Definition ex_slots : gmap Z Z := alloc 5000 7 (alloc 6000 7 ∅).

Definition ex_mem : Mem := mkMem ex_nodes ex_slots.

(** The same nodes with one buffer of nine slots, ending at [5009]. *)
Definition ex_mem9 : Mem := mkMem ex_nodes (alloc 5000 9 ∅).

(** A buffer of a single slot, ending at [5001]. *)
Definition ex_mem1 : Mem := mkMem ∅ (alloc 5000 1 ∅).

(** ** Further notions about lists and buffers *)

(** The number of nodes that carry a parameter pointer. *)
Definition ctx_count (l : list StageList) : nat :=
  length (List.filter (fun nd => negb (ctx nd =? 0)) l).

(** What a node contributes to a program: its stage and its [ctx]. *)
Definition stage_ctx (nd : StageList) : StockStage * ptr := (stage nd, ctx nd).

(** [nth_prev h k st]: the pointer reached from [st] after [k] steps along
    [prev]; [None] when a step reads a node that is not allocated. *)
Fixpoint nth_prev (h : gmap Z StageList) (k : nat) (st : ptr) : option ptr :=
  match k with
  | 0%nat => Some st
  | S k' => match h !! st with
            | Some nd => nth_prev h k' (prev nd)
            | None => None
            end
  end.

(** A chain of [prev] pointers that never reaches null, such as a cycle. *)
Definition endless (h : gmap Z StageList) (st : ptr) : Prop :=
  forall k st', nth_prev h k st = Some st' -> st' <> 0.

(** A node that is its own predecessor, and a store around it. *)
Definition ex_loop : StageList := mkStageList 100 premul 0.

Definition ex_mem_loop : Mem := mkMem (<[100 := ex_loop]> ∅) (alloc 5000 9 ∅).

(** The nodes A, B, C again, at other addresses. *)
Definition ex_A' : StageList := mkStageList 0 load_8888 7001.
Definition ex_B' : StageList := mkStageList 11 premul 0.
Definition ex_C' : StageList := mkStageList 12 store_8888 7002.

Definition ex_mem' : Mem :=
  mkMem (<[11 := ex_A']> (<[12 := ex_B']> (<[13 := ex_C']> ∅))) ex_slots.

(** A buffer one slot short of the six that the list A, B, C needs. *)
Definition ex_mem_short : Mem := mkMem ex_nodes (alloc 5002 5 ∅).

(** ** Selecting the instruction set *)

(** The macros that [SkTypes.h] and [SkOpts.cpp] test: whether each one is
    defined when the translation unit is compiled and, for the two that are
    compared with numbers, its value. *)
Record cpp_defs : Set := mkDefs {
  SK_BUILD_NO_OPTS : bool;
  predefined_SK_CPU_SSE_LEVEL : option Z;
  __AVX512F__ : bool;
  __AVX512DQ__ : bool;
  __AVX512CD__ : bool;
  __AVX512BW__ : bool;
  __AVX512VL__ : bool;
  __AVX2__ : bool;
  __AVX__ : bool;
  __SSE4_2__ : bool;
  __SSE4_1__ : bool;
  __SSSE3__ : bool;
  __SSE3__ : bool;
  __SSE2__ : bool;
  _M_X64 : bool;
  _M_AMD64 : bool;
  _M_IX86_FP : option Z;
  predefined_SK_ARM_HAS_NEON : bool;
  __ARM_NEON : bool;
  predefined_SK_ARM_HAS_CRC32 : bool;
  __ARM_FEATURE_CRC32 : bool;
  __APPLE__ : bool
}.

Definition SK_CPU_SSE_LEVEL_SSE1 : Z := 10.
Definition SK_CPU_SSE_LEVEL_SSE2 : Z := 20.
Definition SK_CPU_SSE_LEVEL_SSE3 : Z := 30.
Definition SK_CPU_SSE_LEVEL_SSSE3 : Z := 31.
Definition SK_CPU_SSE_LEVEL_SSE41 : Z := 41.
Definition SK_CPU_SSE_LEVEL_SSE42 : Z := 42.
Definition SK_CPU_SSE_LEVEL_AVX : Z := 51.
Definition SK_CPU_SSE_LEVEL_AVX2 : Z := 52.
Definition SK_CPU_SSE_LEVEL_SKX : Z := 60.

(** All five AVX-512 macros that the two chains test together. *)
Definition avx512_all (d : cpp_defs) : bool :=
  __AVX512F__ d && __AVX512DQ__ d && __AVX512CD__ d &&
  __AVX512BW__ d && __AVX512VL__ d.

(** The chain under "Are we in GCC/Clang?". *)
Definition sse_level_gcc (d : cpp_defs) : option Z :=
  if avx512_all d then Some SK_CPU_SSE_LEVEL_SKX
  else if __AVX2__ d then Some SK_CPU_SSE_LEVEL_AVX2
  else if __AVX__ d then Some SK_CPU_SSE_LEVEL_AVX
  else if __SSE4_2__ d then Some SK_CPU_SSE_LEVEL_SSE42
  else if __SSE4_1__ d then Some SK_CPU_SSE_LEVEL_SSE41
  else if __SSSE3__ d then Some SK_CPU_SSE_LEVEL_SSSE3
  else if __SSE3__ d then Some SK_CPU_SSE_LEVEL_SSE3
  else if __SSE2__ d then Some SK_CPU_SSE_LEVEL_SSE2
  else None.

(** The chain under "Are we in VisualStudio?". *)
Definition sse_level_msvc (d : cpp_defs) : option Z :=
  if avx512_all d then Some SK_CPU_SSE_LEVEL_SKX
  else if __AVX2__ d then Some SK_CPU_SSE_LEVEL_AVX2
  else if __AVX__ d then Some SK_CPU_SSE_LEVEL_AVX
  else if _M_X64 d || _M_AMD64 d then Some SK_CPU_SSE_LEVEL_SSE2
  else match _M_IX86_FP d with
       | Some v =>
           if v >=? 2 then Some SK_CPU_SSE_LEVEL_SSE2
           else if v =? 1 then Some SK_CPU_SSE_LEVEL_SSE1
           else None
       | None => None
       end.

(** [SK_CPU_SSE_LEVEL] once [SkTypes.h] has been read; [None] when it is
    left undefined. *)
Definition SK_CPU_SSE_LEVEL (d : cpp_defs) : option Z :=
  let l0 := if SK_BUILD_NO_OPTS d then Some 0
            else predefined_SK_CPU_SSE_LEVEL d in
  let l1 := match l0 with Some l => Some l | None => sse_level_gcc d end in
  match l1 with Some l => Some l | None => sse_level_msvc d end.

(** [SK_ARM_HAS_NEON] and [SK_ARM_HAS_CRC32] once [SkTypes.h] has been
    read. *)
Definition SK_ARM_HAS_NEON (d : cpp_defs) : bool :=
  predefined_SK_ARM_HAS_NEON d || (negb (SK_BUILD_NO_OPTS d) && __ARM_NEON d).

Definition SK_ARM_HAS_CRC32 (d : cpp_defs) : bool :=
  predefined_SK_ARM_HAS_CRC32 d || (__ARM_FEATURE_CRC32 d && negb (__APPLE__ d)).

(** The namespaces [SK_OPTS_NS] can name. *)
Inductive opts_ns : Set :=
  | neon_and_crc32 | neon
  | skx | avx2 | avx | sse42 | sse41 | ssse3 | sse3 | sse2 | sse
  | portable.

(** [SK_OPTS_NS] as [SkOpts.cpp] defines it.  An undefined macro counts as
    [0] in a preprocessor comparison. *)
Definition SK_OPTS_NS (d : cpp_defs) : opts_ns :=
  if SK_ARM_HAS_NEON d then
    if SK_ARM_HAS_CRC32 d then neon_and_crc32 else neon
  else
    let lvl := match SK_CPU_SSE_LEVEL d with Some l => l | None => 0 end in
    if lvl >=? SK_CPU_SSE_LEVEL_SKX then skx
    else if lvl >=? SK_CPU_SSE_LEVEL_AVX2 then avx2
    else if lvl >=? SK_CPU_SSE_LEVEL_AVX then avx
    else if lvl >=? SK_CPU_SSE_LEVEL_SSE42 then sse42
    else if lvl >=? SK_CPU_SSE_LEVEL_SSE41 then sse41
    else if lvl >=? SK_CPU_SSE_LEVEL_SSSE3 then ssse3
    else if lvl >=? SK_CPU_SSE_LEVEL_SSE3 then sse3
    else if lvl >=? SK_CPU_SSE_LEVEL_SSE2 then sse2
    else if lvl >=? SK_CPU_SSE_LEVEL_SSE1 then sse
    else portable.

(** The macros of the first chain with the level each one stands for. *)
Definition gcc_features (d : cpp_defs) : list (bool * Z) :=
  [ (avx512_all d, SK_CPU_SSE_LEVEL_SKX);
    (__AVX2__ d, SK_CPU_SSE_LEVEL_AVX2);
    (__AVX__ d, SK_CPU_SSE_LEVEL_AVX);
    (__SSE4_2__ d, SK_CPU_SSE_LEVEL_SSE42);
    (__SSE4_1__ d, SK_CPU_SSE_LEVEL_SSE41);
    (__SSSE3__ d, SK_CPU_SSE_LEVEL_SSSE3);
    (__SSE3__ d, SK_CPU_SSE_LEVEL_SSE3);
    (__SSE2__ d, SK_CPU_SSE_LEVEL_SSE2) ].

(** The level a namespace of the SSE family is selected from. *)
Definition ns_level (ns : opts_ns) : option Z :=
  match ns with
  | neon_and_crc32 | neon => None
  | skx => Some SK_CPU_SSE_LEVEL_SKX
  | avx2 => Some SK_CPU_SSE_LEVEL_AVX2
  | avx => Some SK_CPU_SSE_LEVEL_AVX
  | sse42 => Some SK_CPU_SSE_LEVEL_SSE42
  | sse41 => Some SK_CPU_SSE_LEVEL_SSE41
  | ssse3 => Some SK_CPU_SSE_LEVEL_SSSE3
  | sse3 => Some SK_CPU_SSE_LEVEL_SSE3
  | sse2 => Some SK_CPU_SSE_LEVEL_SSE2
  | sse => Some SK_CPU_SSE_LEVEL_SSE1
  | portable => Some 0
  end.

(** A compilation with no macro of interest defined, and one for a CPU with
    AVX2 (whose compilers also define the older feature macros). *)
Definition ex_defs_none : cpp_defs :=
  mkDefs false None false false false false false false false false false
         false false false false false None false false false false false.

Definition ex_defs_avx2 : cpp_defs :=
  mkDefs false None false false false false false true true true true
         true true true false false None false false false false false.

(** The same with [SK_BUILD_NO_OPTS]. *)
Definition ex_defs_no_opts : cpp_defs :=
  mkDefs true None false false false false false true true true true
         true true true false false None false true false false false.

(** ** Arithmetic of slot counts *)

Lemma slots_of_bounds nd : 1 <= slots_of nd <= 2.
Proof. unfold slots_of. destruct (ctx nd =? 0); lia. Qed.

Lemma slot_count_bounds l :
  Z.of_nat (length l) <= slot_count l <= 2 * Z.of_nat (length l).
Proof.
  induction l as [|nd l IH]; simpl length; simpl slot_count; [lia|].
  pose proof (slots_of_bounds nd). lia.
Qed.

Lemma slot_count_app l1 l2 :
  slot_count (l1 ++ l2) = slot_count l1 + slot_count l2.
Proof. induction l1 as [|nd l1 IH]; simpl; lia. Qed.

Lemma slot_count_rev l : slot_count (rev l) = slot_count l.
Proof.
  induction l as [|nd l IH]; simpl; [reflexivity|].
  rewrite slot_count_app, IH. simpl. lia.
Qed.

Lemma entry_length tbl nd : Z.of_nat (length (entry tbl nd)) = slots_of nd.
Proof. unfold entry, slots_of. destruct (ctx nd =? 0); reflexivity. Qed.

Lemma entries_length tbl l :
  Z.of_nat (length (flat_map (entry tbl) l)) = slot_count l.
Proof.
  induction l as [|nd l IH]; cbn [flat_map slot_count]; [reflexivity|].
  rewrite length_app, Nat2Z.inj_add, IH, entry_length. reflexivity.
Qed.

Lemma program_length tbl sentinel l :
  Z.of_nat (length (program_of tbl sentinel l)) = slot_count l + 1.
Proof.
  unfold program_of. rewrite length_app, Nat2Z.inj_add, entries_length.
  rewrite slot_count_rev. reflexivity.
Qed.

Lemma lowp_prefix_count opts l :
  slot_count (lowp_prefix opts l) <= slot_count l.
Proof.
  induction l as [|nd l IH]; simpl; [lia|].
  pose proof (slots_of_bounds nd) as Hb.
  pose proof (slot_count_bounds l) as Hl.
  destruct (has_lowp opts nd); simpl; lia.
Qed.

Lemma lowp_prefix_all opts l :
  forallb (has_lowp opts) l = true -> lowp_prefix opts l = l.
Proof.
  induction l as [|nd l IH]; simpl; [reflexivity|].
  intros [Hnd Hl]%andb_prop. rewrite Hnd. f_equal. exact (IH Hl).
Qed.

(** ** Regions *)

Lemma region_app s a xs ys :
  region s a (xs ++ ys) <->
  region s a xs /\ region s (a + Z.of_nat (length xs)) ys.
Proof.
  revert a. induction xs as [|x xs IH]; intros a; simpl.
  - replace (a + Z.of_nat 0) with a by lia. tauto.
  - rewrite IH. replace (a + 1 + Z.of_nat (length xs))
      with (a + Z.of_nat (S (length xs))) by lia. tauto.
Qed.

Lemma region_ext s s' a vs :
  (forall b, a <= b < a + Z.of_nat (length vs) -> s' !! b = s !! b) ->
  region s a vs -> region s' a vs.
Proof.
  revert a. induction vs as [|v vs IH]; intros a Hext; simpl; [tauto|].
  intros [Hv Hvs]. split.
  - rewrite Hext; [exact Hv|]. simpl length. lia.
  - apply IH; [|exact Hvs]. intros b Hb. apply Hext. simpl length. lia.
Qed.

Lemma region_lookup s a vs (i : nat) v :
  region s a vs -> vs !! i = Some v -> s !! (a + Z.of_nat i) = Some v.
Proof.
  revert a i. induction vs as [|w vs IH]; intros a i; simpl; [done|].
  intros [Hw Hvs]. destruct i as [|i]; simpl.
  - intros [= ->]. replace (a + Z.of_nat 0) with a by lia. exact Hw.
  - intros Hi. replace (a + Z.of_nat (S i)) with (a + 1 + Z.of_nat i) by lia.
    eauto.
Qed.

Lemma allocated_weaken s lo hi lo' hi' :
  lo <= lo' -> hi' <= hi -> allocated s lo hi -> allocated s lo' hi'.
Proof. intros Hlo Hhi Ha a Hr. apply Ha. lia. Qed.

(** ** One entry *)

Lemma write_entry_fst tbl nd ip s :
  fst (write_entry tbl nd ip s) = ip - slots_of nd.
Proof.
  unfold write_entry, slots_of. destruct (ctx nd =? 0); simpl; lia.
Qed.

Lemma write_entry_region tbl nd ip s :
  region (snd (write_entry tbl nd ip s)) (ip - slots_of nd) (entry tbl nd).
Proof.
  unfold write_entry, slots_of, entry. destruct (ctx nd =? 0); simpl.
  - split; [apply lookup_insert_eq|exact I].
  - replace (ip - 2) with (ip - 1 - 1) by lia.
    split; [apply lookup_insert_eq|].
    replace (ip - 1 - 1 + 1) with (ip - 1) by lia.
    split; [|exact I].
    rewrite lookup_insert_ne by lia. apply lookup_insert_eq.
Qed.

Lemma write_entry_frame tbl nd ip s a :
  a < ip - slots_of nd \/ ip <= a ->
  snd (write_entry tbl nd ip s) !! a = s !! a.
Proof.
  unfold write_entry, slots_of. destruct (ctx nd =? 0); simpl; intros Ha.
  - rewrite lookup_insert_ne by lia. reflexivity.
  - rewrite !lookup_insert_ne by lia. reflexivity.
Qed.

Lemma write_entry_mono tbl nd ip s a :
  is_Some (s !! a) -> is_Some (snd (write_entry tbl nd ip s) !! a).
Proof.
  unfold write_entry. destruct (ctx nd =? 0); simpl; intros Ha;
    rewrite !lookup_insert_is_Some'; auto.
Qed.

(** ** A run of entries *)

Lemma write_entries_fst tbl l ip s :
  fst (write_entries tbl l ip s) = ip - slot_count l.
Proof.
  revert ip s. induction l as [|nd l IH]; intros ip s; simpl; [lia|].
  destruct (write_entry tbl nd ip s) as [ip' s'] eqn:E.
  rewrite IH. pose proof (write_entry_fst tbl nd ip s) as H.
  rewrite E in H. simpl in H. lia.
Qed.

Lemma write_entries_frame tbl l ip s a :
  a < ip - slot_count l \/ ip <= a ->
  snd (write_entries tbl l ip s) !! a = s !! a.
Proof.
  revert ip s. induction l as [|nd l IH]; intros ip s Ha; simpl; [done|].
  destruct (write_entry tbl nd ip s) as [ip' s'] eqn:E.
  pose proof (write_entry_fst tbl nd ip s) as Hf.
  pose proof (write_entry_frame tbl nd ip s a) as Hs.
  pose proof (slots_of_bounds nd) as Hb.
  pose proof (slot_count_bounds l) as Hl.
  rewrite E in Hf, Hs. simpl in Hf, Hs. simpl in Ha.
  rewrite IH by lia. apply Hs. lia.
Qed.

Lemma write_entries_mono tbl l ip s a :
  is_Some (s !! a) -> is_Some (snd (write_entries tbl l ip s) !! a).
Proof.
  revert ip s. induction l as [|nd l IH]; intros ip s Ha; simpl; [done|].
  destruct (write_entry tbl nd ip s) as [ip' s'] eqn:E.
  apply IH. pose proof (write_entry_mono tbl nd ip s a Ha) as H.
  rewrite E in H. exact H.
Qed.

Lemma write_entries_region tbl l ip s :
  region (snd (write_entries tbl l ip s)) (ip - slot_count l)
         (flat_map (entry tbl) (rev l)).
Proof.
  revert ip s.
  induction l as [|nd l IH]; intros ip s;
    cbn [write_entries rev slot_count]; [exact I|].
  destruct (write_entry tbl nd ip s) as [ip' s'] eqn:E.
  pose proof (write_entry_fst tbl nd ip s) as Hf.
  pose proof (write_entry_region tbl nd ip s) as Hr.
  pose proof (slots_of_bounds nd) as Hb.
  rewrite E in Hf, Hr. cbn [fst snd] in Hf, Hr. subst ip'.
  rewrite flat_map_app. apply region_app. split.
  - replace (ip - (slots_of nd + slot_count l))
      with (ip - slots_of nd - slot_count l) by lia. apply IH.
  - rewrite entries_length, slot_count_rev.
    cbn [flat_map]. rewrite app_nil_r.
    replace (ip - (slots_of nd + slot_count l) + slot_count l)
      with (ip - slots_of nd) by lia.
    eapply region_ext; [|exact Hr].
    intros b Hb'. apply write_entries_frame. lia.
Qed.

(** ** The loops compute [write_entries] *)

Lemma mem_eta m : mkMem (nodes m) (slots m) = m.
Proof. destruct m; reflexivity. Qed.

Lemma push_ok ip v m :
  is_Some (slots m !! (ip - 1)) ->
  push ip v m = Some (ip - 1, mkMem (nodes m) (<[ip - 1 := v]> (slots m))).
Proof. intros [w Hw]. unfold push. rewrite Hw. reflexivity. Qed.

Lemma link_step {A} tbl nd ip m (k : ptr -> M A) :
  allocated (slots m) (ip - slots_of nd) ip ->
  (ip1 <- push_ctx ip nd ;; ip2 <- push ip1 (tbl (stage nd)) ;; k ip2) m =
  k (fst (write_entry tbl nd ip (slots m)))
    (mkMem (nodes m) (snd (write_entry tbl nd ip (slots m)))).
Proof.
  unfold allocated, slots_of, write_entry, push_ctx. intros Ha.
  destruct (ctx nd =? 0); unfold bind at 1.
  - unfold ret, bind. rewrite push_ok by (apply Ha; lia). reflexivity.
  - rewrite push_ok by (apply Ha; lia). unfold bind.
    rewrite push_ok; [reflexivity|]. cbn [slots].
    rewrite lookup_insert_ne by lia. apply Ha. lia.
Qed.

(** ** Stores leave the nodes alone *)

Create HintDb keeps discriminated.

Lemma keeps_ret {A} (a : A) : keeps_nodes (ret a).
Proof. intros m r m' [= _ <-]. reflexivity. Qed.

Lemma keeps_fail {A} : keeps_nodes (fun _ : Mem => @None (A * Mem)).
Proof. intros m r m' [=]. Qed.

Lemma keeps_bind {A B} (c : M A) (k : A -> M B) :
  keeps_nodes c -> (forall a, keeps_nodes (k a)) -> keeps_nodes (bind c k).
Proof.
  intros Hc Hk m r m'. unfold bind.
  destruct (c m) as [[a m1]|] eqn:E; [|discriminate].
  intros H. rewrite (Hk a _ _ _ H). exact (Hc _ _ _ E).
Qed.

Lemma keeps_load_node st : keeps_nodes (load_node st).
Proof.
  intros m nd m'. unfold load_node.
  destruct (nodes m !! st); [|discriminate]. intros [= _ <-]. reflexivity.
Qed.

Lemma keeps_push ip v : keeps_nodes (push ip v).
Proof.
  intros m r m'. unfold push.
  destruct (slots m !! (ip - 1)); [|discriminate].
  intros [= _ <-]. reflexivity.
Qed.

Lemma keeps_push_ctx ip nd : keeps_nodes (push_ctx ip nd).
Proof.
  unfold push_ctx. destruct (ctx nd =? 0); [apply keeps_ret|apply keeps_push].
Qed.

#[local] Hint Resolve keeps_ret keeps_fail keeps_load_node keeps_push
  keeps_push_ctx : keeps.

Ltac keeps_step :=
  match goal with
  | |- keeps_nodes (bind _ _) => apply keeps_bind; [|intros ?]
  | |- keeps_nodes (if ?b then _ else _) => destruct b
  | |- keeps_nodes (let _ := _ in _) => cbv zeta
  | |- _ => solve [auto with keeps]
  end.

Section LinkerFacts.

Variable opts : SkOpts.

Lemma highp_loop_spec l : forall fuel st ip m,
  list_at (nodes m) st l ->
  (length l < fuel)%nat ->
  allocated (slots m) (ip - slot_count l) ip ->
  highp_loop opts fuel st ip m =
  Some (fst (write_entries (stages_highp opts) l ip (slots m)),
        mkMem (nodes m) (snd (write_entries (stages_highp opts) l ip (slots m)))).
Proof.
  induction l as [|nd l IH]; intros fuel st ip m Hl Hfuel Ha;
    (destruct fuel as [|fuel]; [cbn [length] in Hfuel; lia|]);
    cbn [list_at] in Hl; cbn [highp_loop write_entries].
  - subst st. cbn. unfold ret. rewrite mem_eta. reflexivity.
  - destruct Hl as (Hst & Hnd & Hl).
    apply Z.eqb_neq in Hst. rewrite Hst.
    unfold bind at 1, load_node. rewrite Hnd.
    pose proof (slot_count_bounds l) as Hc.
    pose proof (slots_of_bounds nd) as Hb.
    cbn [slot_count length] in Ha, Hfuel.
    rewrite link_step by (eapply allocated_weaken; [| |exact Ha]; lia).
    pose proof (write_entry_fst (stages_highp opts) nd ip (slots m)) as Hf.
    destruct (write_entry (stages_highp opts) nd ip (slots m)) as [ip' s'] eqn:E.
    cbn [fst snd] in *. subst ip'.
    rewrite IH; [reflexivity|exact Hl|lia|].
    cbn [slots]. intros a Hr.
    pose proof (write_entry_mono (stages_highp opts) nd ip (slots m) a) as Hm.
    rewrite E in Hm. apply Hm, Ha. lia.
Qed.

Lemma lowp_loop_spec l : forall fuel rp st ip m,
  list_at (nodes m) st l ->
  (length l < fuel)%nat ->
  allocated (slots m) (ip - slot_count (lowp_prefix opts l)) ip ->
  lowp_loop opts fuel rp st ip m =
  Some (if forallb (has_lowp opts) l
        then fst (write_entries (stages_lowp opts) (lowp_prefix opts l) ip (slots m))
        else rp,
        mkMem (nodes m)
          (snd (write_entries (stages_lowp opts) (lowp_prefix opts l) ip (slots m)))).
Proof.
  induction l as [|nd l IH]; intros fuel rp st ip m Hl Hfuel Ha;
    (destruct fuel as [|fuel]; [cbn [length] in Hfuel; lia|]);
    cbn [list_at] in Hl; cbn [lowp_loop lowp_prefix forallb].
  - subst st. cbn. unfold ret. rewrite mem_eta. reflexivity.
  - destruct Hl as (Hst & Hnd & Hl).
    apply Z.eqb_neq in Hst. rewrite Hst.
    unfold bind at 1, load_node. rewrite Hnd.
    cbn [lowp_prefix length] in Ha, Hfuel.
    destruct (has_lowp opts nd) eqn:Hlow; unfold has_lowp in Hlow;
      destruct (stages_lowp opts (stage nd) =? 0); try discriminate Hlow;
      cbn [andb write_entries].
    + pose proof (slot_count_bounds (lowp_prefix opts l)) as Hc.
      pose proof (slots_of_bounds nd) as Hb.
      cbn [negb slot_count] in Ha.
      rewrite link_step by (eapply allocated_weaken; [| |exact Ha]; lia).
      pose proof (write_entry_fst (stages_lowp opts) nd ip (slots m)) as Hf.
      destruct (write_entry (stages_lowp opts) nd ip (slots m)) as [ip' s'] eqn:E.
      cbn [fst snd] in *. subst ip'.
      rewrite IH; [reflexivity|exact Hl|lia|].
      cbn [slots]. intros a Hr.
      pose proof (write_entry_mono (stages_lowp opts) nd ip (slots m) a) as Hm.
      rewrite E in Hm. apply Hm, Ha. lia.
    + unfold ret. cbn [fst snd]. rewrite mem_eta. reflexivity.
Qed.

Lemma lowp_loop_keeps fuel : forall rp st ip,
  keeps_nodes (lowp_loop opts fuel rp st ip).
Proof.
  induction fuel as [|fuel IH]; intros rp st ip; cbn [lowp_loop];
    repeat keeps_step.
Qed.

Lemma highp_loop_keeps fuel : forall st ip,
  keeps_nodes (highp_loop opts fuel st ip).
Proof.
  induction fuel as [|fuel IH]; intros st ip; cbn [highp_loop];
    repeat keeps_step.
Qed.

Lemma build_pipeline_ip_keeps fuel stages ip :
  keeps_nodes (build_pipeline_ip opts fuel stages ip).
Proof.
  pose proof lowp_loop_keeps. pose proof highp_loop_keeps.
  unfold build_pipeline_ip. repeat keeps_step.
Qed.

End LinkerFacts.

(** ** One linking pass *)

Lemma link_fst tbl sentinel l ip s :
  fst (link tbl sentinel l ip s) = ip - (slot_count l + 1).
Proof. unfold link. rewrite write_entries_fst. lia. Qed.

Lemma link_frame tbl sentinel l ip s a :
  a < ip - (slot_count l + 1) \/ ip <= a ->
  snd (link tbl sentinel l ip s) !! a = s !! a.
Proof.
  intros Ha. unfold link. pose proof (slot_count_bounds l).
  rewrite write_entries_frame by lia. rewrite lookup_insert_ne by lia.
  reflexivity.
Qed.

Lemma link_mono tbl sentinel l ip s a :
  is_Some (s !! a) -> is_Some (snd (link tbl sentinel l ip s) !! a).
Proof.
  intros Ha. unfold link. apply write_entries_mono.
  rewrite lookup_insert_is_Some'. auto.
Qed.

Lemma link_region tbl sentinel l ip s :
  region (snd (link tbl sentinel l ip s)) (ip - (slot_count l + 1))
         (program_of tbl sentinel l).
Proof.
  unfold link, program_of. apply region_app. split.
  - replace (ip - (slot_count l + 1)) with (ip - 1 - slot_count l) by lia.
    apply write_entries_region.
  - rewrite entries_length, slot_count_rev.
    replace (ip - (slot_count l + 1) + slot_count l) with (ip - 1) by lia.
    split; [|exact I].
    rewrite write_entries_frame by lia. apply lookup_insert_eq.
Qed.

Lemma allocated_mono s s' lo hi :
  (forall a, is_Some (s !! a) -> is_Some (s' !! a)) ->
  allocated s lo hi -> allocated s' lo hi.
Proof. intros Hm Ha a Hr. apply Hm, Ha, Hr. Qed.

(** ** The whole of [build_pipeline] *)

Section BuildFacts.

Variable opts : SkOpts.

Lemma build_pipeline_ip_spec l fuel stages ip m :
  list_at (nodes m) stages l ->
  (length l < fuel)%nat ->
  allocated (slots m) (ip - (slot_count l + 1)) ip ->
  build_pipeline_ip opts fuel stages ip m =
  Some (if forallb (has_lowp opts) l
        then (start_pipeline_lowp opts, ip - (slot_count l + 1),
              mkMem (nodes m) (snd (lowp_pass opts l ip (slots m))))
        else (start_pipeline_highp opts, ip - (slot_count l + 1),
              mkMem (nodes m)
                (snd (highp_pass opts l ip
                        (snd (lowp_pass opts l ip (slots m))))))).
Proof.
  intros Hl Hfuel Ha.
  pose proof (slot_count_bounds l) as Hc.
  pose proof (slot_count_bounds (lowp_prefix opts l)) as Hc'.
  pose proof (lowp_prefix_count opts l) as Hp.
  unfold build_pipeline_ip. unfold bind at 1.
  rewrite push_ok by (apply Ha; lia).
  unfold bind at 1.
  rewrite (lowp_loop_spec opts l); cbn [nodes slots]; [|exact Hl|exact Hfuel|].
  2:{ intros a Hr. rewrite lookup_insert_is_Some'. right. apply Ha. lia. }
  fold (link (stages_lowp opts) (just_return_lowp opts) (lowp_prefix opts l)
             ip (slots m)).
  fold (lowp_pass opts l ip (slots m)).
  destruct (forallb (has_lowp opts) l) eqn:Hall.
  - assert (fst (lowp_pass opts l ip (slots m)) = ip - (slot_count l + 1))
      as -> by (unfold lowp_pass; rewrite link_fst, lowp_prefix_all; done).
    replace (ip - (slot_count l + 1) =? ip) with false
      by (symmetry; apply Z.eqb_neq; lia).
    reflexivity.
  - rewrite Z.eqb_refl. cbn [negb].
    unfold bind at 1.
    rewrite push_ok; cbn [nodes slots].
    2:{ apply link_mono, Ha. lia. }
    unfold bind at 1.
    rewrite (highp_loop_spec opts l); cbn [nodes slots]; [|exact Hl|exact Hfuel|].
    2:{ intros a Hr. rewrite lookup_insert_is_Some'. right.
        apply link_mono, Ha. lia. }
    fold (link (stages_highp opts) (just_return_highp opts) l ip
               (snd (lowp_pass opts l ip (slots m)))).
    fold (highp_pass opts l ip (snd (lowp_pass opts l ip (slots m)))).
    assert (fst (highp_pass opts l ip (snd (lowp_pass opts l ip (slots m))))
            = ip - (slot_count l + 1))
      as -> by (unfold highp_pass; apply link_fst).
    reflexivity.
Qed.

End BuildFacts.

Lemma needs_highp_false opts l :
  (forall nd, In nd l -> stages_lowp opts (stage nd) <> 0) ->
  needs_highp opts l = false.
Proof.
  intros H. unfold needs_highp. apply negb_false_iff, forallb_forall.
  intros nd Hnd. unfold has_lowp. apply negb_true_iff, Z.eqb_neq, H, Hnd.
Qed.

Lemma needs_highp_true opts l :
  (exists nd, In nd l /\ stages_lowp opts (stage nd) = 0) ->
  needs_highp opts l = true.
Proof.
  intros (nd & Hin & Hnull). unfold needs_highp.
  apply negb_true_iff, not_true_iff_false. intros Hall.
  rewrite forallb_forall in Hall. specialize (Hall nd Hin).
  unfold has_lowp in Hall. rewrite Hnull in Hall. discriminate Hall.
Qed.

Lemma region_lookup_total s a vs b :
  region s a vs ->
  a <= b < a + Z.of_nat (length vs) ->
  s !! b = vs !! Z.to_nat (b - a).
Proof.
  intros Hr Hb.
  destruct (lookup_lt_is_Some_2 vs (Z.to_nat (b - a))) as [v Hv]; [lia|].
  rewrite Hv. pose proof (region_lookup _ _ _ _ _ Hr Hv) as H.
  replace (a + Z.of_nat (Z.to_nat (b - a))) with b in H by lia. exact H.
Qed.

Section BuildProps.

Variable opts : SkOpts.

(** Everything the claims need about one call, in one place. *)
Lemma build_pipeline_ip_props l fuel stages ip m :
  list_at (nodes m) stages l ->
  (length l < fuel)%nat ->
  allocated (slots m) (ip - (slot_count l + 1)) ip ->
  exists m',
    build_pipeline_ip opts fuel stages ip m =
      Some (entry_point opts (needs_highp opts l),
            ip - (slot_count l + 1), m') /\
    nodes m' = nodes m /\
    region (slots m') (ip - (slot_count l + 1))
      (program_of (table_of opts (needs_highp opts l))
                  (sentinel_of opts (needs_highp opts l)) l) /\
    (forall a, a < ip - (slot_count l + 1) \/ ip <= a ->
               slots m' !! a = slots m !! a) /\
    (forall a, is_Some (slots m !! a) -> is_Some (slots m' !! a)).
Proof.
  intros Hl Hfuel Ha.
  pose proof (lowp_prefix_count opts l) as Hp.
  rewrite (build_pipeline_ip_spec opts l) by assumption.
  unfold needs_highp.
  destruct (forallb (has_lowp opts) l) eqn:Hall; cbn [negb];
    eexists; (split; [reflexivity|]); cbn [nodes slots];
    (split; [reflexivity|]).
  - unfold lowp_pass. rewrite (lowp_prefix_all opts l Hall).
    split; [apply link_region|].
    split; [intros a Hr; apply link_frame; exact Hr|].
    intros a Hs. apply link_mono, Hs.
  - unfold highp_pass, lowp_pass.
    split; [apply link_region|].
    split; [|intros a Hs; apply link_mono, link_mono, Hs].
    intros a Hr. rewrite !link_frame by lia. reflexivity.
Qed.

(** The wrappers only project the result of the body. *)
Lemma build_pipeline_of_ip fuel stages ip m fn start m' :
  build_pipeline_ip opts fuel stages ip m = Some (fn, start, m') ->
  build_pipeline opts fuel stages ip m = Some (fn, m') /\
  skia_pipe_raster_build_pipeline opts fuel stages ip m =
    Some (fn =? start_pipeline_highp opts, m').
Proof.
  intros H. unfold skia_pipe_raster_build_pipeline, build_pipeline, bind.
  rewrite H. split; reflexivity.
Qed.

(** A store through [ip] never touches the node heap. *)
Lemma build_pipeline_ip_nodes fuel stages ip m r m' :
  build_pipeline_ip opts fuel stages ip m = Some (r, m') ->
  nodes m' = nodes m.
Proof. apply build_pipeline_ip_keeps. Qed.

End BuildProps.

(** ** The example store *)

Lemma alloc_allocated lo n s : allocated (alloc lo n s) lo (lo + Z.of_nat n).
Proof.
  revert lo. induction n as [|n IH]; intros lo a Ha; [lia|].
  cbn [alloc]. rewrite lookup_insert_is_Some'.
  destruct (decide (lo = a)) as [->|Hne]; [left; reflexivity|right].
  apply IH. lia.
Qed.

Lemma alloc_mono lo n s a : is_Some (s !! a) -> is_Some (alloc lo n s !! a).
Proof.
  revert lo. induction n as [|n IH]; intros lo Ha; cbn [alloc]; [exact Ha|].
  rewrite lookup_insert_is_Some'. right. apply IH, Ha.
Qed.

Lemma ex_slots_first : allocated ex_slots 5000 5007.
Proof. apply (alloc_allocated 5000 7). Qed.

Lemma ex_slots_second : allocated ex_slots 6000 6007.
Proof.
  intros a Ha. apply alloc_mono. apply (alloc_allocated 6000 7). exact Ha.
Qed.

Lemma ex_list_ABC : list_at ex_nodes 300 [ex_C; ex_B; ex_A].
Proof. cbn [list_at]. repeat split; try discriminate; reflexivity. Qed.

Lemma ex_list_ABD : list_at ex_nodes 400 [ex_D; ex_B; ex_A].
Proof. cbn [list_at]. repeat split; try discriminate; reflexivity. Qed.

Lemma ex_list_ABDE : list_at ex_nodes 500 [ex_E; ex_D; ex_B; ex_A].
Proof. cbn [list_at]. repeat split; try discriminate; reflexivity. Qed.

(** * The linker *)

(** C1.  When every node of the list has a non-null entry in the Reduced-tier
    table [stages_lowp], [build_pipeline] returns the Reduced-tier entry
    point [start_pipeline_lowp] and [skia_pipe_raster_build_pipeline] returns
    [false].  The list is well formed in the heap, the buffer below [ip] has
    room for the program, and the two entry points are different
    functions. *)
Theorem build_pipeline_selects_lowp opts l fuel stages ip m :
  list_at (nodes m) stages l ->
  (length l < fuel)%nat ->
  allocated (slots m) (ip - (slot_count l + 1)) ip ->
  start_pipeline_lowp opts <> start_pipeline_highp opts ->
  (forall nd, In nd l -> stages_lowp opts (stage nd) <> 0) ->
  exists m',
    build_pipeline opts fuel stages ip m =
      Some (start_pipeline_lowp opts, m') /\
    skia_pipe_raster_build_pipeline opts fuel stages ip m = Some (false, m').
Proof.
  intros Hl Hfuel Ha Hdiff Hall.
  destruct (build_pipeline_ip_props opts l fuel stages ip m Hl Hfuel Ha)
    as (m' & Hrun & _).
  rewrite (needs_highp_false opts l Hall) in Hrun. cbn [entry_point] in Hrun.
  destruct (build_pipeline_of_ip opts _ _ _ _ _ _ _ Hrun) as [Hb Hw].
  exists m'. split; [exact Hb|].
  rewrite Hw. apply Z.eqb_neq in Hdiff. rewrite Hdiff. reflexivity.
Qed.

Lemma build_pipeline_selects_lowp_witness :
  exists m',
    build_pipeline ex_opts 4 300 5007 ex_mem = Some (2000, m') /\
    skia_pipe_raster_build_pipeline ex_opts 4 300 5007 ex_mem = Some (false, m').
Proof.
  apply (build_pipeline_selects_lowp ex_opts [ex_C; ex_B; ex_A] 4 300 5007 ex_mem).
  - exact ex_list_ABC.
  - cbn [length]. lia.
  - intros a Ha. apply ex_slots_first.
    change (5001 <= a < 5007) in Ha. lia.
  - discriminate.
  - intros nd [<-|[<-|[<-|[]]]]; discriminate.
Defined.

(** C2.  When some node of the list has a null entry in the Reduced-tier
    table, [build_pipeline] returns the Full-tier entry point
    [start_pipeline_highp] and [skia_pipe_raster_build_pipeline] returns
    [true]; both return normally, and the [bool] is all the latter reports. *)
Theorem build_pipeline_falls_back_to_highp opts l fuel stages ip m :
  list_at (nodes m) stages l ->
  (length l < fuel)%nat ->
  allocated (slots m) (ip - (slot_count l + 1)) ip ->
  (exists nd, In nd l /\ stages_lowp opts (stage nd) = 0) ->
  exists m',
    build_pipeline opts fuel stages ip m =
      Some (start_pipeline_highp opts, m') /\
    skia_pipe_raster_build_pipeline opts fuel stages ip m = Some (true, m').
Proof.
  intros Hl Hfuel Ha Hnull.
  destruct (build_pipeline_ip_props opts l fuel stages ip m Hl Hfuel Ha)
    as (m' & Hrun & _).
  rewrite (needs_highp_true opts l Hnull) in Hrun. cbn [entry_point] in Hrun.
  destruct (build_pipeline_of_ip opts _ _ _ _ _ _ _ Hrun) as [Hb Hw].
  exists m'. split; [exact Hb|].
  rewrite Hw, Z.eqb_refl. reflexivity.
Qed.

Lemma build_pipeline_falls_back_to_highp_witness :
  exists m',
    build_pipeline ex_opts 4 400 5007 ex_mem = Some (1000, m') /\
    skia_pipe_raster_build_pipeline ex_opts 4 400 5007 ex_mem = Some (true, m').
Proof.
  apply (build_pipeline_falls_back_to_highp ex_opts [ex_D; ex_B; ex_A]
           4 400 5007 ex_mem).
  - exact ex_list_ABD.
  - cbn [length]. lia.
  - intros a Ha. apply ex_slots_first.
    change (5001 <= a < 5007) in Ha. lia.
  - exists ex_D. split; [left; reflexivity|reflexivity].
Defined.

(** C3.  For every stage list, the program that [build_pipeline] leaves in
    the buffer starts at the final write cursor and ends at the buffer end
    [ip]; read forward from its start it holds the stages in append order
    (the oldest node first), each as its function pointer of the selected
    tier followed at once by its parameter pointer when that is not null,
    and then the sentinel of that tier.  For A with parameters, B without,
    C with parameters this is the sequence A, p1, B, C, p2, sentinel. *)
Theorem build_pipeline_program_order opts l fuel stages ip m :
  list_at (nodes m) stages l ->
  (length l < fuel)%nat ->
  allocated (slots m) (ip - (slot_count l + 1)) ip ->
  let highp := needs_highp opts l in
  let prog := program_of (table_of opts highp) (sentinel_of opts highp) l in
  exists m',
    build_pipeline_ip opts fuel stages ip m =
      Some (entry_point opts highp, ip - Z.of_nat (length prog), m') /\
    region (slots m') (ip - Z.of_nat (length prog)) prog.
Proof.
  intros Hl Hfuel Ha highp prog.
  destruct (build_pipeline_ip_props opts l fuel stages ip m Hl Hfuel Ha)
    as (m' & Hrun & _ & Hreg & _).
  subst prog highp. rewrite program_length. eauto.
Qed.

Lemma build_pipeline_program_order_witness :
  exists m',
    build_pipeline_ip ex_opts 4 300 5007 ex_mem = Some (2000, 5001, m') /\
    region (slots m') 5001 [2101; 7001; 2102; 2103; 7002; 2001].
Proof.
  apply (build_pipeline_program_order ex_opts [ex_C; ex_B; ex_A]
           4 300 5007 ex_mem).
  - exact ex_list_ABC.
  - cbn [length]. lia.
  - intros a Ha. apply ex_slots_first.
    change (5001 <= a < 5007) in Ha. lia.
Defined.

(** C4.  When the Reduced-tier attempt fails (some node has a null entry in
    [stages_lowp]), the Full-tier pass starts again from the buffer end, and
    every slot from the final write cursor up to the buffer end [ip] holds
    the corresponding slot of the Full-tier program: Full-tier function
    pointers, parameter pointers and the Full-tier sentinel.  Nothing the
    failed attempt wrote is left in that range. *)
Theorem build_pipeline_fallback_region opts l fuel stages ip m :
  list_at (nodes m) stages l ->
  (length l < fuel)%nat ->
  allocated (slots m) (ip - (slot_count l + 1)) ip ->
  (exists nd, In nd l /\ stages_lowp opts (stage nd) = 0) ->
  exists m',
    build_pipeline_ip opts fuel stages ip m =
      Some (start_pipeline_highp opts, ip - (slot_count l + 1), m') /\
    forall a, ip - (slot_count l + 1) <= a < ip ->
      exists v,
        program_of (stages_highp opts) (just_return_highp opts) l
          !! Z.to_nat (a - (ip - (slot_count l + 1))) = Some v /\
        slots m' !! a = Some v.
Proof.
  intros Hl Hfuel Ha Hnull.
  destruct (build_pipeline_ip_props opts l fuel stages ip m Hl Hfuel Ha)
    as (m' & Hrun & _ & Hreg & _).
  rewrite (needs_highp_true opts l Hnull) in Hrun, Hreg.
  cbn [entry_point table_of sentinel_of] in Hrun, Hreg.
  exists m'. split; [exact Hrun|].
  intros a Hr.
  pose proof (program_length (stages_highp opts) (just_return_highp opts) l)
    as Hlen.
  destruct (lookup_lt_is_Some_2
              (program_of (stages_highp opts) (just_return_highp opts) l)
              (Z.to_nat (a - (ip - (slot_count l + 1))))) as [v Hv]; [lia|].
  exists v. split; [exact Hv|].
  rewrite (region_lookup_total _ _ _ a Hreg) by lia. exact Hv.
Qed.

Lemma build_pipeline_fallback_region_witness :
  exists m',
    build_pipeline_ip ex_opts 5 500 5009 ex_mem9 = Some (1000, 5001, m') /\
    forall a, 5001 <= a < 5009 ->
      exists v,
        [1101; 7001; 1102; 1104; 7003; 1103; 7004; 1001]
          !! Z.to_nat (a - 5001) = Some v /\
        slots m' !! a = Some v.
Proof.
  apply (build_pipeline_fallback_region ex_opts [ex_E; ex_D; ex_B; ex_A]
           5 500 5009 ex_mem9).
  - exact ex_list_ABDE.
  - cbn [length]. lia.
  - intros a Ha. apply (alloc_allocated 5000 9).
    change (5001 <= a < 5009) in Ha. lia.
  - exists ex_D. split; [right; left; reflexivity|reflexivity].
Defined.

(** C5.  For a list of [n] nodes and a buffer of [2 * n + 1] allocated slots
    ending at [ip], [build_pipeline] runs without storing to any slot that is
    not allocated.  Each pass moves the write cursor down from [ip] by one
    slot for the sentinel, one per stage it links and one more per linked
    stage with a non-null [ctx]; that is at most [2 * n + 1] slots, and every
    slot outside the buffer keeps its value. *)
Theorem build_pipeline_within_buffer opts l fuel stages ip m :
  list_at (nodes m) stages l ->
  (length l < fuel)%nat ->
  allocated (slots m) (ip - (2 * Z.of_nat (length l) + 1)) ip ->
  exists fn m',
    build_pipeline_ip opts fuel stages ip m =
      Some (fn, ip - (slot_count l + 1), m') /\
    fst (lowp_pass opts l ip (slots m)) =
      ip - (slot_count (lowp_prefix opts l) + 1) /\
    fst (highp_pass opts l ip (snd (lowp_pass opts l ip (slots m)))) =
      ip - (slot_count l + 1) /\
    slot_count (lowp_prefix opts l) + 1 <= slot_count l + 1 /\
    slot_count l + 1 <= 2 * Z.of_nat (length l) + 1 /\
    forall a, a < ip - (2 * Z.of_nat (length l) + 1) \/ ip <= a ->
              slots m' !! a = slots m !! a.
Proof.
  intros Hl Hfuel Ha.
  pose proof (slot_count_bounds l) as Hc.
  pose proof (lowp_prefix_count opts l) as Hp.
  assert (Ha' : allocated (slots m) (ip - (slot_count l + 1)) ip)
    by (eapply allocated_weaken; [| |exact Ha]; lia).
  destruct (build_pipeline_ip_props opts l fuel stages ip m Hl Hfuel Ha')
    as (m' & Hrun & _ & _ & Hframe & _).
  eexists _, m'. split; [exact Hrun|].
  unfold lowp_pass, highp_pass. rewrite !link_fst.
  repeat (split; [first [reflexivity|lia]|]).
  intros a Hr. apply Hframe. lia.
Qed.

Lemma build_pipeline_within_buffer_witness :
  exists fn m',
    build_pipeline_ip ex_opts 5 500 5009 ex_mem9 = Some (fn, 5001, m') /\
    fst (lowp_pass ex_opts [ex_E; ex_D; ex_B; ex_A] 5009 (alloc 5000 9 ∅)) =
      5006 /\
    fst (highp_pass ex_opts [ex_E; ex_D; ex_B; ex_A] 5009
           (snd (lowp_pass ex_opts [ex_E; ex_D; ex_B; ex_A] 5009
                   (alloc 5000 9 ∅)))) = 5001 /\
    3 <= 8 /\
    8 <= 9 /\
    forall a, a < 5000 \/ 5009 <= a -> slots m' !! a = alloc 5000 9 ∅ !! a.
Proof.
  apply (build_pipeline_within_buffer ex_opts [ex_E; ex_D; ex_B; ex_A]
           5 500 5009 ex_mem9).
  - exact ex_list_ABDE.
  - cbn [length]. lia.
  - exact (alloc_allocated 5000 9 ∅).
Defined.

(** C6.  For the empty list (a null [StageList*]) [build_pipeline] stores one
    slot, the Reduced-tier sentinel [just_return_lowp], one slot below the
    buffer end; the program starts there; the Reduced-tier entry point is
    returned and [skia_pipe_raster_build_pipeline] returns [false]. *)
Theorem build_pipeline_empty_list opts fuel ip m :
  (0 < fuel)%nat ->
  is_Some (slots m !! (ip - 1)) ->
  start_pipeline_lowp opts <> start_pipeline_highp opts ->
  build_pipeline_ip opts fuel 0 ip m =
    Some (start_pipeline_lowp opts, ip - 1,
          mkMem (nodes m) (<[ip - 1 := just_return_lowp opts]> (slots m))) /\
  skia_pipe_raster_build_pipeline opts fuel 0 ip m =
    Some (false,
          mkMem (nodes m) (<[ip - 1 := just_return_lowp opts]> (slots m))).
Proof.
  intros Hfuel Hslot Hdiff.
  assert (Hrun : build_pipeline_ip opts fuel 0 ip m =
    Some (start_pipeline_lowp opts, ip - 1,
          mkMem (nodes m) (<[ip - 1 := just_return_lowp opts]> (slots m)))).
  { destruct fuel as [|fuel]; [lia|].
    unfold build_pipeline_ip. unfold bind at 1. rewrite push_ok by exact Hslot.
    unfold bind at 1. cbn [lowp_loop Z.eqb]. unfold ret at 1.
    replace (ip - 1 =? ip) with false by (symmetry; apply Z.eqb_neq; lia).
    reflexivity. }
  split; [exact Hrun|].
  destruct (build_pipeline_of_ip opts _ _ _ _ _ _ _ Hrun) as [_ Hw].
  rewrite Hw. apply Z.eqb_neq in Hdiff. rewrite Hdiff. reflexivity.
Qed.

Lemma build_pipeline_empty_list_witness :
  build_pipeline_ip ex_opts 1 0 5001 ex_mem1 =
    Some (2000, 5000, mkMem ∅ (<[5000 := 2001]> (alloc 5000 1 ∅))) /\
  skia_pipe_raster_build_pipeline ex_opts 1 0 5001 ex_mem1 =
    Some (false, mkMem ∅ (<[5000 := 2001]> (alloc 5000 1 ∅))).
Proof.
  apply (build_pipeline_empty_list ex_opts 1 5001 ex_mem1).
  - lia.
  - apply (alloc_allocated 5000 1). lia.
  - discriminate.
Defined.

(** C9.  [build_pipeline] stores through [ip] only and never into a
    [StageList] node: after a build the node heap, with every node's [prev],
    [stage] and [ctx], is what it was before.  So for two lists that share
    the nodes [shared], built one after the other into buffers that do not
    overlap, both builds return, the nodes are unchanged, and both programs
    are in place afterwards. *)
Theorem build_pipeline_shared_prefix opts shared l1 l2 fuel p1 p2 ip1 ip2 m :
  list_at (nodes m) p1 (l1 ++ shared) ->
  list_at (nodes m) p2 (l2 ++ shared) ->
  (length (l1 ++ shared) < fuel)%nat ->
  (length (l2 ++ shared) < fuel)%nat ->
  allocated (slots m) (ip1 - (slot_count (l1 ++ shared) + 1)) ip1 ->
  allocated (slots m) (ip2 - (slot_count (l2 ++ shared) + 1)) ip2 ->
  ip1 <= ip2 - (slot_count (l2 ++ shared) + 1) \/
  ip2 <= ip1 - (slot_count (l1 ++ shared) + 1) ->
  exists fn1 start1 m1 fn2 start2 m2,
    build_pipeline_ip opts fuel p1 ip1 m = Some (fn1, start1, m1) /\
    build_pipeline_ip opts fuel p2 ip2 m1 = Some (fn2, start2, m2) /\
    nodes m1 = nodes m /\
    nodes m2 = nodes m /\
    region (slots m2) start1
      (program_of (table_of opts (needs_highp opts (l1 ++ shared)))
                  (sentinel_of opts (needs_highp opts (l1 ++ shared)))
                  (l1 ++ shared)) /\
    region (slots m2) start2
      (program_of (table_of opts (needs_highp opts (l2 ++ shared)))
                  (sentinel_of opts (needs_highp opts (l2 ++ shared)))
                  (l2 ++ shared)).
Proof.
  intros Hl1 Hl2 Hf1 Hf2 Ha1 Ha2 Hdisj.
  destruct (build_pipeline_ip_props opts _ fuel p1 ip1 m Hl1 Hf1 Ha1)
    as (m1 & Hrun1 & _ & Hreg1 & Hframe1 & Hmono1).
  pose proof (build_pipeline_ip_nodes opts _ _ _ _ _ _ Hrun1) as Hn1.
  assert (Hl2' : list_at (nodes m1) p2 (l2 ++ shared)) by (rewrite Hn1; exact Hl2).
  assert (Ha2' : allocated (slots m1) (ip2 - (slot_count (l2 ++ shared) + 1)) ip2)
    by (eapply allocated_mono; [exact Hmono1|exact Ha2]).
  destruct (build_pipeline_ip_props opts _ fuel p2 ip2 m1 Hl2' Hf2 Ha2')
    as (m2 & Hrun2 & _ & Hreg2 & Hframe2 & _).
  pose proof (build_pipeline_ip_nodes opts _ _ _ _ _ _ Hrun2) as Hn2.
  eexists _, _, m1, _, _, m2.
  split; [exact Hrun1|]. split; [exact Hrun2|].
  split; [exact Hn1|]. split; [congruence|].
  split; [|exact Hreg2].
  eapply region_ext; [|exact Hreg1].
  intros b Hb. rewrite program_length in Hb. apply Hframe2. lia.
Qed.

Lemma build_pipeline_shared_prefix_witness :
  exists fn1 start1 m1 fn2 start2 m2,
    build_pipeline_ip ex_opts 4 300 5007 ex_mem = Some (fn1, start1, m1) /\
    build_pipeline_ip ex_opts 4 400 6007 m1 = Some (fn2, start2, m2) /\
    nodes m1 = ex_nodes /\
    nodes m2 = ex_nodes /\
    region (slots m2) start1 [2101; 7001; 2102; 2103; 7002; 2001] /\
    region (slots m2) start2 [1101; 7001; 1102; 1104; 7003; 1001].
Proof.
  apply (build_pipeline_shared_prefix ex_opts [ex_B; ex_A] [ex_C] [ex_D]
           4 300 400 5007 6007 ex_mem).
  - exact ex_list_ABC.
  - exact ex_list_ABD.
  - cbn [length app]. lia.
  - cbn [length app]. lia.
  - intros a Ha. apply ex_slots_first.
    change (5001 <= a < 5007) in Ha. lia.
  - intros a Ha. apply ex_slots_second.
    change (6001 <= a < 6007) in Ha. lia.
  - left. change (5007 <= 6001). lia.
Defined.

(** * The executor *)

Lemma to_uint_small z : 0 <= z < 2 ^ 32 -> to_uint z = z.
Proof. intros Hz. unfold to_uint. apply Z.mod_small, Hz. Qed.

Lemma uint_add_to_uint a b : uint_add (to_uint a) (to_uint b) = to_uint (a + b).
Proof. unfold uint_add, to_uint. symmetry. apply Zplus_mod. Qed.

(** C7.  [skia_pipe_raster_run_pipeline] makes exactly one call and does
    nothing else: through [start_pipeline_highp] when [is_highp] is true and
    through [start_pipeline_lowp] when it is false, with the arguments [x],
    [y], [x + w], [y + h] and the program pointer.  The coordinates are
    [unsigned int] values and the sums are the [unsigned int] sums of the
    source, which are [x + w] and [y + h] whenever these fit in 32 bits. *)
Theorem run_pipeline_dispatch opts program is_highp x y w h :
  0 <= x < 2 ^ 32 -> 0 <= y < 2 ^ 32 ->
  0 <= w < 2 ^ 32 -> 0 <= h < 2 ^ 32 ->
  skia_pipe_raster_run_pipeline opts program is_highp x y w h =
    [Call (if is_highp then start_pipeline_highp opts
           else start_pipeline_lowp opts)
          x y (uint_add x w) (uint_add y h) program] /\
  (x + w < 2 ^ 32 -> uint_add x w = x + w) /\
  (y + h < 2 ^ 32 -> uint_add y h = y + h).
Proof.
  intros Hx Hy Hw Hh. split.
  - unfold skia_pipe_raster_run_pipeline.
    rewrite !to_uint_small by assumption.
    destruct is_highp; reflexivity.
  - split; intros Hsum; apply to_uint_small; lia.
Qed.

Lemma run_pipeline_dispatch_witness :
  skia_pipe_raster_run_pipeline ex_opts 5001 true 3 4 10 2 =
    [Call 1000 3 4 13 6 5001] /\
  skia_pipe_raster_run_pipeline ex_opts 5001 false 3 4 10 2 =
    [Call 2000 3 4 13 6 5001].
Proof.
  split.
  - apply (run_pipeline_dispatch ex_opts 5001 true 3 4 10 2); lia.
  - apply (run_pipeline_dispatch ex_opts 5001 false 3 4 10 2); lia.
Defined.

(** C10.  The bounds are computed in 32-bit [unsigned int] arithmetic: for
    all arguments, the entry point receives [x mod 2^32], [y mod 2^32],
    [(x + w) mod 2^32] and [(y + h) mod 2^32].  A sum of [2^32] or more is
    therefore passed reduced, not as the mathematical sum, and an argument
    wider than 32 bits is truncated. *)
Theorem run_pipeline_wraps opts program is_highp x y w h :
  skia_pipe_raster_run_pipeline opts program is_highp x y w h =
    [Call (entry_point opts is_highp)
          (x mod 2 ^ 32) (y mod 2 ^ 32)
          ((x + w) mod 2 ^ 32) ((y + h) mod 2 ^ 32) program].
Proof.
  unfold skia_pipe_raster_run_pipeline. rewrite !uint_add_to_uint.
  destruct is_highp; reflexivity.
Qed.

(** The right edge for [x = 2^32 - 1] and [w = 1] is [0], not [2^32]. *)
Example uint_right_edge_at_max :
  skia_pipe_raster_run_pipeline ex_opts 5001 true 4294967295 0 1 1 =
    [Call 1000 4294967295 0 0 1 5001].
Proof. reflexivity. Qed.

(** ** Chunks of a row *)

Lemma map_fmap_shift {A} (f : Z -> A) (k : Z) (l : list Z) :
  map f (Z.add k <$> l) = map (fun i => f (k + i)) l.
Proof.
  induction l as [|i l IH]; [reflexivity|].
  rewrite fmap_cons. cbn [map]. rewrite IH. reflexivity.
Qed.

Lemma full_chunks_shift (N : positive) y dx q :
  0 <= q ->
  map (fun i => Chunk (dx + i * Z.pos N) y (Z.pos N)) (seqZ 0 (q + 1)) =
  Chunk dx y (Z.pos N) ::
  map (fun i => Chunk (dx + Z.pos N + i * Z.pos N) y (Z.pos N)) (seqZ 0 q).
Proof.
  intros Hq. rewrite seqZ_cons by lia. cbn [map]. f_equal.
  - f_equal. lia.
  - replace (Z.pred (q + 1)) with q by lia.
    replace (Z.succ 0) with (1 + 0) by lia.
    rewrite <- fmap_add_seqZ, map_fmap_shift.
    apply map_ext. intros i. f_equal. lia.
Qed.

Lemma row_chunks_meets_spec N y xlimit dx :
  dx <= xlimit ->
  row_chunks N y xlimit dx = row_chunks_spec N y dx xlimit.
Proof.
  functional induction (row_chunks N y xlimit dx); intros Hle;
    unfold row_chunks_spec.
  - apply Z.leb_le in e.
    rewrite IHl by lia. unfold row_chunks_spec.
    replace (xlimit - dx) with (xlimit - (dx + Z.pos N) + 1 * Z.pos N) by lia.
    rewrite Z.div_add, Z.mod_add by lia.
    rewrite full_chunks_shift by (apply Z.div_pos; lia).
    cbn [app].
    replace (dx + ((xlimit - (dx + Z.pos N)) / Z.pos N + 1) * Z.pos N)
      with (dx + Z.pos N + (xlimit - (dx + Z.pos N)) / Z.pos N * Z.pos N)
      by lia.
    reflexivity.
  - apply Z.eqb_eq in e0. replace (xlimit - dx) with 0 by lia.
    reflexivity.
  - apply Z.leb_gt in e. apply Z.eqb_neq in e0.
    rewrite Z.div_small, Z.mod_small by lia.
    apply Z.eqb_neq in e0. rewrite e0.
    rewrite seqZ_nil by lia. cbn [map app]. do 2 f_equal. lia.
Qed.

(** C8.  Over a rectangle of width [W = x1 - x0], with batch width [N], each
    row [y] of [y0 .. y1 - 1] is processed as [W / N] chunks of width [N],
    starting at [x0], [x0 + N], ..., followed by one tail chunk of width
    [W mod N] when [N] does not divide [W], and by no tail chunk when it
    does. *)
Theorem start_pipeline_chunks N x0 y0 x1 y1 :
  x0 <= x1 ->
  start_pipeline N x0 y0 x1 y1 =
    flat_map (fun y => row_chunks_spec N y x0 x1) (seqZ y0 (y1 - y0)).
Proof.
  intros Hle. unfold start_pipeline. apply flat_map_ext.
  intros y. apply row_chunks_meets_spec, Hle.
Qed.

Lemma start_pipeline_chunks_witness :
  start_pipeline 4 0 0 10 2 =
    [Chunk 0 0 4; Chunk 4 0 4; Chunk 8 0 2;
     Chunk 0 1 4; Chunk 4 1 4; Chunk 8 1 2] /\
  start_pipeline 4 0 0 8 1 = [Chunk 0 0 4; Chunk 4 0 4].
Proof.
  split.
  - apply (start_pipeline_chunks 4 0 0 10 2). lia.
  - apply (start_pipeline_chunks 4 0 0 8 1). lia.
Defined.

(** * More about the linker *)

Lemma slot_count_ctx_count l :
  slot_count l = Z.of_nat (length l) + Z.of_nat (ctx_count l).
Proof.
  unfold ctx_count. induction l as [|nd l IH]; [reflexivity|].
  cbn [slot_count length List.filter]. unfold slots_of at 1.
  destruct (ctx nd =? 0); cbn [negb length]; lia.
Qed.

(** A linking pass overwrites its whole range, so its result does not depend
    on what the range held before. *)
Lemma link_determined tbl sentinel l ip s1 s2 :
  (forall a, a < ip - (slot_count l + 1) \/ ip <= a -> s1 !! a = s2 !! a) ->
  snd (link tbl sentinel l ip s1) = snd (link tbl sentinel l ip s2).
Proof.
  intros Hout. apply map_eq. intros a.
  destruct (decide (ip - (slot_count l + 1) <= a < ip)) as [Hin|Hnot].
  - pose proof (program_length tbl sentinel l) as Hlen.
    rewrite (region_lookup_total _ _ _ a (link_region tbl sentinel l ip s1))
      by lia.
    rewrite (region_lookup_total _ _ _ a (link_region tbl sentinel l ip s2))
      by lia.
    reflexivity.
  - rewrite !link_frame by lia. apply Hout. lia.
Qed.

Section MoreBuildFacts.

Variable opts : SkOpts.

(** The slots after a build are those of one pass of the selected tier over
    the slots before it. *)
Lemma build_pipeline_ip_final l fuel stages ip m :
  list_at (nodes m) stages l ->
  (length l < fuel)%nat ->
  allocated (slots m) (ip - (slot_count l + 1)) ip ->
  build_pipeline_ip opts fuel stages ip m =
    Some (entry_point opts (needs_highp opts l), ip - (slot_count l + 1),
          mkMem (nodes m)
            (snd (link (table_of opts (needs_highp opts l))
                       (sentinel_of opts (needs_highp opts l)) l ip (slots m)))).
Proof.
  intros Hl Hfuel Ha.
  rewrite (build_pipeline_ip_spec opts l) by assumption.
  unfold needs_highp.
  destruct (forallb (has_lowp opts) l) eqn:Hall;
    cbn [negb entry_point table_of sentinel_of].
  - unfold lowp_pass. rewrite (lowp_prefix_all opts l Hall). reflexivity.
  - unfold highp_pass, lowp_pass. do 3 f_equal.
    apply link_determined. intros a Hr.
    pose proof (lowp_prefix_count opts l). apply link_frame. lia.
Qed.

(** The second half of [build_pipeline], run on its own. *)
Lemma highp_only_spec l fuel stages ip m :
  list_at (nodes m) stages l ->
  (length l < fuel)%nat ->
  allocated (slots m) (ip - (slot_count l + 1)) ip ->
  (ip1 <- push ip (just_return_highp opts) ;; highp_loop opts fuel stages ip1) m
  = Some (ip - (slot_count l + 1),
          mkMem (nodes m) (snd (highp_pass opts l ip (slots m)))).
Proof.
  intros Hl Hfuel Ha. pose proof (slot_count_bounds l) as Hc.
  unfold bind. rewrite push_ok by (apply Ha; lia).
  rewrite (highp_loop_spec opts l); cbn [nodes slots];
    [|exact Hl|exact Hfuel|].
  2:{ intros a Hr. rewrite lookup_insert_is_Some'. right. apply Ha. lia. }
  fold (link (stages_highp opts) (just_return_highp opts) l ip (slots m)).
  rewrite link_fst. reflexivity.
Qed.

End MoreBuildFacts.

(** X1.  The program starts [1 + n + k] slots below the buffer end, where [n]
    is the number of nodes and [k] the number of nodes with a non-null [ctx]:
    the start depends neither on the tier nor on the stage kinds, so a caller
    can find it without [build_pipeline] returning it. *)
Theorem build_pipeline_start_formula opts l fuel stages ip m :
  list_at (nodes m) stages l ->
  (length l < fuel)%nat ->
  allocated (slots m)
    (ip - (1 + Z.of_nat (length l) + Z.of_nat (ctx_count l))) ip ->
  exists fn m',
    build_pipeline_ip opts fuel stages ip m =
      Some (fn, ip - (1 + Z.of_nat (length l) + Z.of_nat (ctx_count l)), m').
Proof.
  intros Hl Hfuel Ha.
  replace (1 + Z.of_nat (length l) + Z.of_nat (ctx_count l))
    with (slot_count l + 1) in * by (rewrite slot_count_ctx_count; lia).
  destruct (build_pipeline_ip_props opts l fuel stages ip m Hl Hfuel Ha)
    as (m' & Hrun & _).
  eauto.
Qed.

Lemma build_pipeline_start_formula_witness :
  exists fn m', build_pipeline_ip ex_opts 4 300 5007 ex_mem = Some (fn, 5001, m').
Proof.
  apply (build_pipeline_start_formula ex_opts [ex_C; ex_B; ex_A]
           4 300 5007 ex_mem).
  - exact ex_list_ABC.
  - cbn [length]. lia.
  - intros a Ha. apply ex_slots_first.
    change (5001 <= a < 5007) in Ha. lia.
Defined.

(** X3.  A failed Reduced-tier attempt leaves no trace anywhere: when some
    node has a null [stages_lowp] entry, the store after [build_pipeline] is
    the store that the Full-tier half of the function alone produces from
    the initial store. *)
Theorem build_pipeline_fallback_exact opts l fuel stages ip m :
  list_at (nodes m) stages l ->
  (length l < fuel)%nat ->
  allocated (slots m) (ip - (slot_count l + 1)) ip ->
  (exists nd, In nd l /\ stages_lowp opts (stage nd) = 0) ->
  exists start m',
    build_pipeline_ip opts fuel stages ip m =
      Some (start_pipeline_highp opts, start, m') /\
    (ip1 <- push ip (just_return_highp opts) ;;
     highp_loop opts fuel stages ip1) m = Some (start, m').
Proof.
  intros Hl Hfuel Ha Hnull.
  rewrite (build_pipeline_ip_final opts l) by assumption.
  rewrite (highp_only_spec opts l) by assumption.
  rewrite (needs_highp_true opts l Hnull).
  cbn [entry_point table_of sentinel_of]. unfold highp_pass. eauto.
Qed.

Lemma build_pipeline_fallback_exact_witness :
  exists start m',
    build_pipeline_ip ex_opts 5 500 5009 ex_mem9 = Some (1000, start, m') /\
    (ip1 <- push 5009 1001 ;; highp_loop ex_opts 5 500 ip1) ex_mem9 =
      Some (start, m').
Proof.
  apply (build_pipeline_fallback_exact ex_opts [ex_E; ex_D; ex_B; ex_A]
           5 500 5009 ex_mem9).
  - exact ex_list_ABDE.
  - cbn [length]. lia.
  - intros a Ha. apply (alloc_allocated 5000 9).
    change (5001 <= a < 5009) in Ha. lia.
  - exists ex_D. split; [right; left; reflexivity|reflexivity].
Defined.

(** X4.  [build_pipeline] changes the slots of the program, from its start up
    to the buffer end, and nothing else: the lower slots of a buffer larger
    than the program keep their values, and the set of allocated slots is
    the same after the call. *)
Theorem build_pipeline_exact_frame opts l fuel stages ip m :
  list_at (nodes m) stages l ->
  (length l < fuel)%nat ->
  allocated (slots m) (ip - (slot_count l + 1)) ip ->
  exists fn start m',
    build_pipeline_ip opts fuel stages ip m = Some (fn, start, m') /\
    (forall a, a < start \/ ip <= a -> slots m' !! a = slots m !! a) /\
    (forall a, is_Some (slots m' !! a) <-> is_Some (slots m !! a)).
Proof.
  intros Hl Hfuel Ha.
  destruct (build_pipeline_ip_props opts l fuel stages ip m Hl Hfuel Ha)
    as (m' & Hrun & _ & _ & Hframe & Hmono).
  eexists _, _, m'. split; [exact Hrun|]. split; [exact Hframe|].
  intros a. split; [|apply Hmono].
  destruct (decide (ip - (slot_count l + 1) <= a < ip)) as [Hin|Hout].
  - intros _. apply Ha, Hin.
  - rewrite Hframe by lia. tauto.
Qed.

Lemma build_pipeline_exact_frame_witness :
  exists fn start m',
    build_pipeline_ip ex_opts 4 300 5007 ex_mem = Some (fn, start, m') /\
    (forall a, a < start \/ 5007 <= a -> slots m' !! a = ex_slots !! a) /\
    (forall a, is_Some (slots m' !! a) <-> is_Some (ex_slots !! a)).
Proof.
  apply (build_pipeline_exact_frame ex_opts [ex_C; ex_B; ex_A]
           4 300 5007 ex_mem).
  - exact ex_list_ABC.
  - cbn [length]. lia.
  - intros a Ha. apply ex_slots_first.
    change (5001 <= a < 5007) in Ha. lia.
Defined.

(** X5.  Building the same list into the same buffer a second time returns
    the same entry point and start and leaves the store as the first build
    left it. *)
Theorem build_pipeline_rebuild opts l fuel stages ip m :
  list_at (nodes m) stages l ->
  (length l < fuel)%nat ->
  allocated (slots m) (ip - (slot_count l + 1)) ip ->
  exists r m',
    build_pipeline_ip opts fuel stages ip m = Some (r, m') /\
    build_pipeline_ip opts fuel stages ip m' = Some (r, m').
Proof.
  intros Hl Hfuel Ha.
  rewrite (build_pipeline_ip_final opts l) by assumption.
  eexists _, _. split; [reflexivity|].
  rewrite (build_pipeline_ip_final opts l); cbn [nodes slots];
    [|exact Hl|exact Hfuel|].
  2:{ intros a Hr. apply link_mono, Ha, Hr. }
  do 3 f_equal. apply link_determined.
  intros a Hr. apply link_frame, Hr.
Qed.

Lemma build_pipeline_rebuild_witness :
  exists r m',
    build_pipeline_ip ex_opts 4 400 5007 ex_mem = Some (r, m') /\
    build_pipeline_ip ex_opts 4 400 5007 m' = Some (r, m').
Proof.
  apply (build_pipeline_rebuild ex_opts [ex_D; ex_B; ex_A] 4 400 5007 ex_mem).
  - exact ex_list_ABD.
  - cbn [length]. lia.
  - intros a Ha. apply ex_slots_first.
    change (5001 <= a < 5007) in Ha. lia.
Defined.

(** ** Buffers that are too small *)

Lemma allocated_or_hole s lo (n : nat) :
  allocated s lo (lo + Z.of_nat n) \/
  exists a, lo <= a < lo + Z.of_nat n /\ s !! a = None.
Proof.
  induction n as [|n IH].
  - left. intros a Ha. lia.
  - destruct IH as [Hall|(a & Ha & Hnone)].
    + destruct (s !! (lo + Z.of_nat n)) as [v|] eqn:E.
      * left. intros a Ha.
        destruct (decide (a = lo + Z.of_nat n)) as [->|Hne];
          [rewrite E; eauto|apply Hall; lia].
      * right. exists (lo + Z.of_nat n). split; [lia|exact E].
    + right. exists a. split; [lia|exact Hnone].
Qed.

Lemma allocated_or_hole_range s lo hi :
  allocated s lo hi \/ exists a, lo <= a < hi /\ s !! a = None.
Proof.
  destruct (decide (lo <= hi)) as [Hle|Hgt].
  - replace hi with (lo + Z.of_nat (Z.to_nat (hi - lo))) by lia.
    apply allocated_or_hole.
  - left. intros a Ha. lia.
Qed.

Lemma push_hole ip v m : slots m !! (ip - 1) = None -> push ip v m = None.
Proof. intros H. unfold push. rewrite H. reflexivity. Qed.

Lemma link_step_hole {A} tbl nd ip m (k : ptr -> M A) a :
  ip - slots_of nd <= a < ip ->
  slots m !! a = None ->
  (ip1 <- push_ctx ip nd ;; ip2 <- push ip1 (tbl (stage nd)) ;; k ip2) m = None.
Proof.
  unfold slots_of, push_ctx. intros Ha Hnone.
  destruct (ctx nd =? 0); unfold bind at 1.
  - unfold ret, bind. replace a with (ip - 1) in Hnone by lia.
    rewrite (push_hole _ _ _ Hnone). reflexivity.
  - destruct (slots m !! (ip - 1)) as [v|] eqn:E.
    + rewrite push_ok by (rewrite E; eauto). unfold bind.
      rewrite push_hole; [reflexivity|]. cbn [slots].
      rewrite lookup_insert_ne by lia.
      replace (ip - 1 - 1) with a by (assert (a <> ip - 1) by congruence; lia).
      exact Hnone.
    + rewrite (push_hole _ _ _ E). reflexivity.
Qed.

Section Undersized.

Variable opts : SkOpts.

Lemma highp_loop_hole l : forall fuel st ip m a,
  list_at (nodes m) st l ->
  ip - slot_count l <= a < ip ->
  slots m !! a = None ->
  highp_loop opts fuel st ip m = None.
Proof.
  induction l as [|nd l IH]; intros fuel st ip m a Hl Ha Hnone;
    [cbn [slot_count] in Ha; lia|].
  destruct fuel as [|fuel]; [reflexivity|].
  cbn [list_at] in Hl. destruct Hl as (Hst & Hnd & Hl).
  cbn [highp_loop]. apply Z.eqb_neq in Hst. rewrite Hst.
  unfold bind at 1, load_node. rewrite Hnd.
  cbn [slot_count] in Ha.
  destruct (allocated_or_hole_range (slots m) (ip - slots_of nd) ip)
    as [Hall|(b & Hb & Hbnone)].
  - rewrite link_step by exact Hall.
    assert (a < ip - slots_of nd) as Hlow.
    { destruct (decide (a < ip - slots_of nd)) as [|Hge]; [assumption|].
      destruct (Hall a) as [v Hv]; [lia|congruence]. }
    pose proof (write_entry_fst (stages_highp opts) nd ip (slots m)) as Hf.
    pose proof (write_entry_frame (stages_highp opts) nd ip (slots m) a) as Hfr.
    destruct (write_entry (stages_highp opts) nd ip (slots m)) as [ip' s'].
    cbn [fst snd] in *. subst ip'.
    apply (IH _ _ _ _ a); cbn [nodes slots]; [exact Hl|lia|].
    rewrite Hfr by lia. exact Hnone.
  - apply (link_step_hole _ _ _ _ _ b Hb Hbnone).
Qed.

Lemma lowp_loop_hole l : forall fuel rp st ip m a,
  list_at (nodes m) st l ->
  ip - slot_count (lowp_prefix opts l) <= a < ip ->
  slots m !! a = None ->
  lowp_loop opts fuel rp st ip m = None.
Proof.
  induction l as [|nd l IH]; intros fuel rp st ip m a Hl Ha Hnone;
    [cbn [lowp_prefix slot_count] in Ha; lia|].
  destruct fuel as [|fuel]; [reflexivity|].
  cbn [list_at] in Hl. destruct Hl as (Hst & Hnd & Hl).
  cbn [lowp_loop]. apply Z.eqb_neq in Hst. rewrite Hst.
  unfold bind at 1, load_node. rewrite Hnd.
  cbn [lowp_prefix] in Ha. unfold has_lowp in Ha.
  destruct (stages_lowp opts (stage nd) =? 0);
    cbn [negb slot_count] in Ha; [lia|].
  destruct (allocated_or_hole_range (slots m) (ip - slots_of nd) ip)
    as [Hall|(b & Hb & Hbnone)].
  - rewrite link_step by exact Hall.
    assert (a < ip - slots_of nd) as Hlow.
    { destruct (decide (a < ip - slots_of nd)) as [|Hge]; [assumption|].
      destruct (Hall a) as [v Hv]; [lia|congruence]. }
    pose proof (write_entry_fst (stages_lowp opts) nd ip (slots m)) as Hf.
    pose proof (write_entry_frame (stages_lowp opts) nd ip (slots m) a) as Hfr.
    destruct (write_entry (stages_lowp opts) nd ip (slots m)) as [ip' s'].
    cbn [fst snd] in *. subst ip'.
    apply (IH _ _ _ _ _ a); cbn [nodes slots]; [exact Hl|lia|].
    rewrite Hfr by lia. exact Hnone.
  - apply (link_step_hole _ _ _ _ _ b Hb Hbnone).
Qed.

End Undersized.

Lemma build_pipeline_undersized_at opts l fuel stages ip m a :
  list_at (nodes m) stages l ->
  (length l < fuel)%nat ->
  ip - (slot_count l + 1) <= a < ip ->
  slots m !! a = None ->
  build_pipeline_ip opts fuel stages ip m = None.
Proof.
  intros Hl Hfuel Ha Hnone.
  pose proof (lowp_prefix_count opts l) as Hp.
  pose proof (slot_count_bounds (lowp_prefix opts l)) as Hc.
  unfold build_pipeline_ip. unfold bind at 1.
  destruct (slots m !! (ip - 1)) as [v|] eqn:E;
    [|rewrite (push_hole _ _ _ E); reflexivity].
  rewrite push_ok by (rewrite E; eauto).
  assert (a <> ip - 1) as Hne by congruence.
  unfold bind at 1.
  destruct (allocated_or_hole_range
              (<[ip - 1 := just_return_lowp opts]> (slots m))
              (ip - 1 - slot_count (lowp_prefix opts l)) (ip - 1))
    as [Hall|(b & Hb & Hbnone)].
  2:{ rewrite (lowp_loop_hole opts l _ _ _ _ _ b); [reflexivity|exact Hl| |];
        cbn [slots]; assumption. }
  rewrite (lowp_loop_spec opts l); cbn [nodes slots];
    [|exact Hl|exact Hfuel|exact Hall].
  assert (a < ip - 1 - slot_count (lowp_prefix opts l)) as Hlow.
  { destruct (decide (a < ip - 1 - slot_count (lowp_prefix opts l)))
      as [|Hge]; [assumption|].
    destruct (Hall a) as [w Hw]; [lia|].
    rewrite lookup_insert_ne in Hw by lia. congruence. }
  destruct (forallb (has_lowp opts) l) eqn:Hforall.
  - rewrite (lowp_prefix_all opts l Hforall) in Hlow. lia.
  - rewrite Z.eqb_refl. cbn [negb]. unfold bind at 1.
    set (s2 := snd (write_entries (stages_lowp opts) (lowp_prefix opts l)
                      (ip - 1) (<[ip - 1 := just_return_lowp opts]> (slots m)))).
    assert (s2 !! a = None) as Hs2.
    { subst s2. rewrite write_entries_frame by lia.
      rewrite lookup_insert_ne by lia. exact Hnone. }
    destruct (s2 !! (ip - 1)) as [w|] eqn:E2.
    + rewrite push_ok by (cbn [slots]; rewrite E2; eauto).
      unfold bind at 1.
      rewrite (highp_loop_hole opts l _ _ _ _ a); cbn [nodes slots];
        [reflexivity|exact Hl|lia|].
      rewrite lookup_insert_ne by lia. exact Hs2.
    + rewrite push_hole by (cbn [slots]; exact E2). reflexivity.
Qed.

(** X2.  [build_pipeline] checks no capacity: it stores to every one of the
    [slot_count l + 1] slots below the buffer end, so unless all of them are
    allocated the call is undefined, whichever tier the list selects. *)
Theorem build_pipeline_undersized opts l fuel stages ip m :
  list_at (nodes m) stages l ->
  (length l < fuel)%nat ->
  ~ allocated (slots m) (ip - (slot_count l + 1)) ip ->
  build_pipeline_ip opts fuel stages ip m = None.
Proof.
  intros Hl Hfuel Hnot.
  destruct (allocated_or_hole_range (slots m) (ip - (slot_count l + 1)) ip)
    as [Hall|(a & Ha & Hnone)]; [contradiction|].
  exact (build_pipeline_undersized_at opts l fuel stages ip m a
           Hl Hfuel Ha Hnone).
Qed.

Lemma build_pipeline_undersized_witness :
  build_pipeline_ip ex_opts 4 300 5007 ex_mem_short = None.
Proof.
  apply (build_pipeline_undersized ex_opts [ex_C; ex_B; ex_A]
           4 300 5007 ex_mem_short).
  - exact ex_list_ABC.
  - cbn [length]. lia.
  - intros Hall. destruct (Hall 5001) as [v Hv].
    + change (5001 <= 5001 < 5007). lia.
    + discriminate Hv.
Defined.

Lemma slot_count_all_ctx l :
  (forall nd, In nd l -> ctx nd <> 0) ->
  slot_count l = 2 * Z.of_nat (length l).
Proof.
  induction l as [|nd l IH]; intros Hall; [reflexivity|].
  cbn [slot_count length]. unfold slots_of.
  assert ((ctx nd =? 0) = false) as -> by (apply Z.eqb_neq, Hall; left; reflexivity).
  rewrite IH by (intros nd' Hin; apply Hall; right; exact Hin). lia.
Qed.

(** X15.  The bound [2 * n + 1] is attained: when every node has a non-null
    [ctx], the slot [2 * n + 1] below the buffer end is stored to, so
    [build_pipeline] is undefined if that slot is not allocated. *)
Theorem build_pipeline_needs_full_bound opts l fuel stages ip m :
  list_at (nodes m) stages l ->
  (length l < fuel)%nat ->
  (forall nd, In nd l -> ctx nd <> 0) ->
  slots m !! (ip - (2 * Z.of_nat (length l) + 1)) = None ->
  build_pipeline_ip opts fuel stages ip m = None.
Proof.
  intros Hl Hfuel Hctx Hnone.
  apply (build_pipeline_undersized_at opts l fuel stages ip m
           (ip - (2 * Z.of_nat (length l) + 1)) Hl Hfuel); [|exact Hnone].
  rewrite (slot_count_all_ctx l Hctx). lia.
Qed.

Lemma build_pipeline_needs_full_bound_witness :
  build_pipeline_ip ex_opts 2 100 5003 (mkMem ex_nodes (alloc 5001 2 ∅)) = None.
Proof.
  apply (build_pipeline_needs_full_bound ex_opts [ex_A] 2 100 5003
           (mkMem ex_nodes (alloc 5001 2 ∅))).
  - cbn [list_at]. repeat split; try discriminate; reflexivity.
  - cbn [length]. lia.
  - intros nd [<-|[]]. discriminate.
  - reflexivity.
Defined.

(** ** Longer lists, other addresses, endless lists *)

Lemma needs_highp_app opts l' l :
  needs_highp opts l = true -> needs_highp opts (l' ++ l) = true.
Proof.
  unfold needs_highp. rewrite forallb_app.
  destruct (forallb (has_lowp opts) l); [discriminate|].
  rewrite andb_false_r. reflexivity.
Qed.

Lemma ex_fallback_ABD :
  exists m1,
    skia_pipe_raster_build_pipeline ex_opts 5 400 5009 ex_mem9 = Some (true, m1).
Proof. eexists. vm_compute. reflexivity. Defined.

(** X6.  Once [skia_pipe_raster_build_pipeline] returns [true] for a list,
    it returns [true] for every list obtained from it by appending further
    stages. *)
Theorem fallback_kept_by_append opts l l' fuel p p' ip ip' m m1 :
  list_at (nodes m) p l ->
  list_at (nodes m) p' (l' ++ l) ->
  (length (l' ++ l) < fuel)%nat ->
  allocated (slots m) (ip - (slot_count l + 1)) ip ->
  allocated (slots m) (ip' - (slot_count (l' ++ l) + 1)) ip' ->
  skia_pipe_raster_build_pipeline opts fuel p ip m = Some (true, m1) ->
  exists m2,
    skia_pipe_raster_build_pipeline opts fuel p' ip' m = Some (true, m2).
Proof.
  intros Hl Hl' Hfuel Ha Ha' Hrun.
  assert (length l < fuel)%nat as Hfuel0 by (rewrite length_app in Hfuel; lia).
  destruct (build_pipeline_ip_props opts l fuel p ip m Hl Hfuel0 Ha)
    as (n1 & Hrun1 & _).
  destruct (build_pipeline_ip_props opts _ fuel p' ip' m Hl' Hfuel Ha')
    as (m2 & Hrun2 & _).
  destruct (build_pipeline_of_ip opts _ _ _ _ _ _ _ Hrun1) as [_ Hw1].
  destruct (build_pipeline_of_ip opts _ _ _ _ _ _ _ Hrun2) as [_ Hw2].
  exists m2. rewrite Hw2. rewrite Hw1 in Hrun. injection Hrun as Hb _.
  destruct (needs_highp opts l) eqn:Hn.
  - rewrite (needs_highp_app opts l' l Hn). cbn [entry_point].
    rewrite Z.eqb_refl. reflexivity.
  - cbn [entry_point] in Hb.
    destruct (needs_highp opts (l' ++ l)); cbn [entry_point];
      [rewrite Z.eqb_refl|rewrite Hb]; reflexivity.
Qed.

Lemma fallback_kept_by_append_witness :
  exists m2,
    skia_pipe_raster_build_pipeline ex_opts 5 500 5009 ex_mem9 = Some (true, m2).
Proof.
  destruct (ex_fallback_ABD) as (m1 & Hm1).
  apply (fallback_kept_by_append ex_opts [ex_D; ex_B; ex_A] [ex_E]
           5 400 500 5009 5009 ex_mem9 m1).
  - exact ex_list_ABD.
  - exact ex_list_ABDE.
  - cbn [length app]. lia.
  - intros a Ha. apply (alloc_allocated 5000 9).
    change (5003 <= a < 5009) in Ha. lia.
  - intros a Ha. apply (alloc_allocated 5000 9).
    change (5001 <= a < 5009) in Ha. lia.
  - exact Hm1.
Defined.

(** X7.  The [bool] that [skia_pipe_raster_build_pipeline] returns, handed
    to [skia_pipe_raster_run_pipeline], makes it call exactly the entry
    point that [build_pipeline] returned for the list. *)
Theorem run_calls_built_entry_point opts l fuel stages ip m program x y w h :
  list_at (nodes m) stages l ->
  (length l < fuel)%nat ->
  allocated (slots m) (ip - (slot_count l + 1)) ip ->
  exists fn b m',
    build_pipeline opts fuel stages ip m = Some (fn, m') /\
    skia_pipe_raster_build_pipeline opts fuel stages ip m = Some (b, m') /\
    exists x0 y0 x1 y1,
      skia_pipe_raster_run_pipeline opts program b x y w h =
        [Call fn x0 y0 x1 y1 program].
Proof.
  intros Hl Hfuel Ha.
  destruct (build_pipeline_ip_props opts l fuel stages ip m Hl Hfuel Ha)
    as (m' & Hrun & _).
  destruct (build_pipeline_of_ip opts _ _ _ _ _ _ _ Hrun) as [Hb Hw].
  eexists _, _, m'. split; [exact Hb|]. split; [exact Hw|].
  unfold skia_pipe_raster_run_pipeline.
  destruct (needs_highp opts l); cbn [entry_point].
  - rewrite Z.eqb_refl. eauto 6.
  - destruct (start_pipeline_lowp opts =? start_pipeline_highp opts) eqn:E;
      [apply Z.eqb_eq in E; rewrite <- E|]; eauto 6.
Qed.

Lemma run_calls_built_entry_point_witness :
  exists fn b m',
    build_pipeline ex_opts 4 300 5007 ex_mem = Some (fn, m') /\
    skia_pipe_raster_build_pipeline ex_opts 4 300 5007 ex_mem = Some (b, m') /\
    exists x0 y0 x1 y1,
      skia_pipe_raster_run_pipeline ex_opts 5001 b 0 0 4 1 =
        [Call fn x0 y0 x1 y1 5001].
Proof.
  apply (run_calls_built_entry_point ex_opts [ex_C; ex_B; ex_A]
           4 300 5007 ex_mem 5001 0 0 4 1).
  - exact ex_list_ABC.
  - cbn [length]. lia.
  - intros a Ha. apply ex_slots_first.
    change (5001 <= a < 5007) in Ha. lia.
Defined.

Lemma uint_add_overflow a b :
  0 <= a < 2 ^ 32 -> 0 <= b < 2 ^ 32 ->
  (uint_add a b < a <-> 2 ^ 32 <= a + b).
Proof.
  intros Ha Hb. unfold uint_add, to_uint.
  destruct (decide (a + b < 2 ^ 32)) as [Hsmall|Hbig].
  - rewrite Z.mod_small by lia. lia.
  - replace ((a + b) mod 2 ^ 32) with (a + b - 2 ^ 32); [lia|].
    symmetry. rewrite <- (Z.mod_add _ (-1)) by lia.
    rewrite Z.mod_small; lia.
Qed.

(** X8.  For [unsigned int] coordinates, the right edge that
    [skia_pipe_raster_run_pipeline] passes on is left of the left edge
    exactly when [x + w] does not fit in 32 bits, and the bottom edge is
    above the top edge exactly when [y + h] does not. *)
Theorem run_pipeline_inverted_on_overflow opts program is_highp x y w h :
  0 <= x < 2 ^ 32 -> 0 <= y < 2 ^ 32 ->
  0 <= w < 2 ^ 32 -> 0 <= h < 2 ^ 32 ->
  exists fn x1 y1,
    skia_pipe_raster_run_pipeline opts program is_highp x y w h =
      [Call fn x y x1 y1 program] /\
    (x1 < x <-> 2 ^ 32 <= x + w) /\
    (y1 < y <-> 2 ^ 32 <= y + h).
Proof.
  intros Hx Hy Hw Hh. unfold skia_pipe_raster_run_pipeline.
  rewrite !to_uint_small by assumption.
  destruct is_highp; eexists _, _, _;
    (split; [reflexivity|]); split; apply uint_add_overflow; assumption.
Qed.

Lemma run_pipeline_inverted_on_overflow_witness :
  exists fn x1 y1,
    skia_pipe_raster_run_pipeline ex_opts 5001 true 4294967295 7 2 1 =
      [Call fn 4294967295 7 x1 y1 5001] /\
    (x1 < 4294967295 <-> 2 ^ 32 <= 4294967295 + 2) /\
    (y1 < 7 <-> 2 ^ 32 <= 7 + 1).
Proof.
  apply (run_pipeline_inverted_on_overflow ex_opts 5001 true 4294967295 7 2 1);
    lia.
Defined.

Section SameStages.

Variable opts : SkOpts.

Lemma slot_count_same l1 : forall l2,
  map stage_ctx l1 = map stage_ctx l2 -> slot_count l1 = slot_count l2.
Proof.
  induction l1 as [|n1 l1 IH]; intros [|n2 l2]; try discriminate;
    [reflexivity|].
  cbn [map slot_count]. unfold stage_ctx at 1 3, slots_of.
  intros [= _ Hc Ht]. rewrite Hc, (IH l2 Ht). reflexivity.
Qed.

Lemma write_entries_same tbl l1 : forall l2 ip s,
  map stage_ctx l1 = map stage_ctx l2 ->
  write_entries tbl l1 ip s = write_entries tbl l2 ip s.
Proof.
  induction l1 as [|n1 l1 IH]; intros [|n2 l2] ip s; try discriminate;
    [reflexivity|].
  cbn [map write_entries]. unfold stage_ctx at 1 3, write_entry.
  intros [= Hs Hc Ht]. rewrite Hs, Hc.
  destruct (ctx n2 =? 0); apply IH, Ht.
Qed.

Lemma needs_highp_same l1 : forall l2,
  map stage_ctx l1 = map stage_ctx l2 ->
  needs_highp opts l1 = needs_highp opts l2.
Proof.
  unfold needs_highp.
  induction l1 as [|n1 l1 IH]; intros [|n2 l2]; try discriminate;
    [reflexivity|].
  cbn [map forallb]. unfold stage_ctx at 1 3, has_lowp at 1 3.
  intros [= Hs _ Ht]. rewrite Hs. specialize (IH l2 Ht).
  destruct (stages_lowp opts (stage n2) =? 0); cbn [negb andb];
    [reflexivity|exact IH].
Qed.

End SameStages.

(** X9.  The program depends on the stages and [ctx] pointers of the list
    only: two lists with the same stages and [ctx] pointers in the same
    order, whatever the addresses of their nodes and whatever else the two
    heaps hold, give the same entry point, the same start and the same
    slots. *)
Theorem build_pipeline_address_independent opts l1 l2 fuel p1 p2 ip m1 m2 :
  list_at (nodes m1) p1 l1 ->
  list_at (nodes m2) p2 l2 ->
  map stage_ctx l1 = map stage_ctx l2 ->
  slots m1 = slots m2 ->
  (length l1 < fuel)%nat ->
  allocated (slots m1) (ip - (slot_count l1 + 1)) ip ->
  exists fn start m1' m2',
    build_pipeline_ip opts fuel p1 ip m1 = Some (fn, start, m1') /\
    build_pipeline_ip opts fuel p2 ip m2 = Some (fn, start, m2') /\
    slots m1' = slots m2'.
Proof.
  intros Hl1 Hl2 Hsame Hslots Hfuel Ha.
  assert (length l2 = length l1) as Hlen
    by (rewrite <- (length_map stage_ctx l2), <- Hsame; apply length_map).
  pose proof (slot_count_same l1 l2 Hsame) as Hcount.
  rewrite (build_pipeline_ip_final opts l1) by assumption.
  rewrite (build_pipeline_ip_final opts l2);
    [|exact Hl2|lia|rewrite <- Hslots, <- Hcount; exact Ha].
  rewrite <- (needs_highp_same opts l1 l2 Hsame), <- Hcount, <- Hslots.
  eexists _, _, _, _. split; [reflexivity|]. split; [reflexivity|].
  cbn [slots]. unfold link.
  rewrite (write_entries_same _ l1 l2 _ _ Hsame). reflexivity.
Qed.

Lemma build_pipeline_address_independent_witness :
  exists fn start m1' m2',
    build_pipeline_ip ex_opts 4 300 5007 ex_mem = Some (fn, start, m1') /\
    build_pipeline_ip ex_opts 4 13 5007 ex_mem' = Some (fn, start, m2') /\
    slots m1' = slots m2'.
Proof.
  apply (build_pipeline_address_independent ex_opts
           [ex_C; ex_B; ex_A] [ex_C'; ex_B'; ex_A'] 4 300 13 5007 ex_mem ex_mem').
  - exact ex_list_ABC.
  - cbn [list_at]. repeat split; try discriminate; reflexivity.
  - reflexivity.
  - reflexivity.
  - cbn [length]. lia.
  - intros a Ha. apply ex_slots_first.
    change (5001 <= a < 5007) in Ha. lia.
Defined.

Lemma endless_head h st : endless h st -> st <> 0.
Proof. intros He. apply (He 0%nat). reflexivity. Qed.

Lemma endless_prev h st nd :
  endless h st -> h !! st = Some nd -> endless h (prev nd).
Proof.
  intros He Hnd k st' Hk. apply (He (S k)). cbn [nth_prev].
  rewrite Hnd. exact Hk.
Qed.

Section Endless.

Variable opts : SkOpts.

Lemma highp_loop_endless fuel : forall st ip m,
  endless (nodes m) st -> highp_loop opts fuel st ip m = None.
Proof.
  induction fuel as [|fuel IH]; intros st ip m He; [reflexivity|].
  cbn [highp_loop]. pose proof (endless_head _ _ He) as Hst.
  apply Z.eqb_neq in Hst. rewrite Hst.
  unfold bind at 1, load_node.
  destruct (nodes m !! st) as [nd|] eqn:Hnd; [|reflexivity].
  unfold bind at 1.
  destruct (push_ctx ip nd m) as [[ip1 m1]|] eqn:E1; [|reflexivity].
  unfold bind at 1.
  destruct (push ip1 (stages_highp opts (stage nd)) m1) as [[ip2 m2]|] eqn:E2;
    [|reflexivity].
  apply IH. rewrite (keeps_push _ _ _ _ _ E2), (keeps_push_ctx _ _ _ _ _ E1).
  exact (endless_prev _ _ _ He Hnd).
Qed.

Lemma lowp_loop_endless fuel : forall rp st ip m r m',
  endless (nodes m) st ->
  lowp_loop opts fuel rp st ip m = Some (r, m') ->
  r = rp /\ nodes m' = nodes m.
Proof.
  induction fuel as [|fuel IH]; intros rp st ip m r m' He; [discriminate|].
  cbn [lowp_loop]. pose proof (endless_head _ _ He) as Hst.
  apply Z.eqb_neq in Hst. rewrite Hst.
  unfold bind at 1, load_node.
  destruct (nodes m !! st) as [nd|] eqn:Hnd; [|discriminate].
  destruct (stages_lowp opts (stage nd) =? 0).
  - intros [= <- <-]. split; reflexivity.
  - unfold bind at 1.
    destruct (push_ctx ip nd m) as [[ip1 m1]|] eqn:E1; [|discriminate].
    unfold bind at 1.
    destruct (push ip1 (stages_lowp opts (stage nd)) m1) as [[ip2 m2]|] eqn:E2;
      [|discriminate].
    pose proof (keeps_push _ _ _ _ _ E2) as H2.
    pose proof (keeps_push_ctx _ _ _ _ _ E1) as H1.
    intros Hrec. apply IH in Hrec.
    + destruct Hrec as [-> Hn]. split; [reflexivity|congruence].
    + rewrite H2, H1. exact (endless_prev _ _ _ He Hnd).
Qed.

End Endless.

(** X10.  On a list whose [prev] chain never reaches null, such as a cycle,
    [build_pipeline] produces no program, however long it is allowed to
    run: its loops have no other exit than the null pointer, apart from the
    first loop giving up on a stage without Reduced-tier implementation. *)
Theorem build_pipeline_endless opts fuel stages ip m :
  endless (nodes m) stages ->
  build_pipeline_ip opts fuel stages ip m = None.
Proof.
  intros He. unfold build_pipeline_ip. unfold bind at 1.
  destruct (push ip (just_return_lowp opts) m) as [[ip1 m1]|] eqn:E1;
    [|reflexivity].
  pose proof (keeps_push _ _ _ _ _ E1) as H1.
  unfold bind at 1.
  destruct (lowp_loop opts fuel ip stages ip1 m1) as [[ip2 m2]|] eqn:E2;
    [|reflexivity].
  apply lowp_loop_endless in E2; [|rewrite H1; exact He].
  destruct E2 as [-> H2]. rewrite Z.eqb_refl. cbn [negb].
  unfold bind at 1.
  destruct (push ip (just_return_highp opts) m2) as [[ip3 m3]|] eqn:E3;
    [|reflexivity].
  pose proof (keeps_push _ _ _ _ _ E3) as H3.
  unfold bind at 1. rewrite highp_loop_endless; [reflexivity|].
  rewrite H3, H2, H1. exact He.
Qed.

Lemma ex_loop_endless : endless (nodes ex_mem_loop) 100.
Proof.
  intros k. induction k as [|k IH]; intros st'.
  - intros [= <-]. discriminate.
  - cbn [nth_prev].
    change (nodes ex_mem_loop !! 100) with (Some ex_loop). exact (IH st').
Qed.

Lemma build_pipeline_endless_witness :
  build_pipeline_ip ex_opts 1000 100 5009 ex_mem_loop = None.
Proof.
  apply (build_pipeline_endless ex_opts 1000 100 5009 ex_mem_loop).
  exact ex_loop_endless.
Defined.

(** * The instruction set behind the tables *)

Ltac level_constants :=
  unfold SK_CPU_SSE_LEVEL_SKX, SK_CPU_SSE_LEVEL_AVX2, SK_CPU_SSE_LEVEL_AVX,
    SK_CPU_SSE_LEVEL_SSE42, SK_CPU_SSE_LEVEL_SSE41, SK_CPU_SSE_LEVEL_SSSE3,
    SK_CPU_SSE_LEVEL_SSE3, SK_CPU_SSE_LEVEL_SSE2, SK_CPU_SSE_LEVEL_SSE1 in *.

Ltac use_feature H :=
  repeat (destruct H as [H|H];
          [first [discriminate H|injection H as <-; level_constants; lia]|]);
  contradiction H.

Lemma sse_level_gcc_highest d v :
  In (true, v) (gcc_features d) ->
  exists l, sse_level_gcc d = Some l /\ v <= l /\ In (true, l) (gcc_features d).
Proof.
  unfold gcc_features, sse_level_gcc. intros Hin.
  destruct (avx512_all d), (__AVX2__ d), (__AVX__ d), (__SSE4_2__ d),
    (__SSE4_1__ d), (__SSSE3__ d), (__SSE3__ d), (__SSE2__ d);
    cbn [In] in Hin;
    first [ eexists; split; [reflexivity|]; split;
            [use_feature Hin|cbn [In]; tauto]
          | use_feature Hin ].
Qed.

(** X11.  Unless [SK_BUILD_NO_OPTS] or a definition from outside fixes it,
    [SK_CPU_SSE_LEVEL] is set to the highest level among the feature macros
    of the first chain that are defined. *)
Theorem sse_level_is_highest d v :
  SK_BUILD_NO_OPTS d = false ->
  predefined_SK_CPU_SSE_LEVEL d = None ->
  In (true, v) (gcc_features d) ->
  exists l,
    SK_CPU_SSE_LEVEL d = Some l /\ v <= l /\ In (true, l) (gcc_features d).
Proof.
  intros Hno Hpre Hin.
  destruct (sse_level_gcc_highest d v Hin) as (l & Hl & Hle & Hlin).
  exists l. unfold SK_CPU_SSE_LEVEL. rewrite Hno, Hpre, Hl. auto.
Qed.

Lemma sse_level_is_highest_witness :
  exists l,
    SK_CPU_SSE_LEVEL ex_defs_avx2 = Some l /\ 41 <= l /\
    In (true, l) (gcc_features ex_defs_avx2).
Proof.
  apply (sse_level_is_highest ex_defs_avx2 SK_CPU_SSE_LEVEL_SSE41).
  - reflexivity.
  - reflexivity.
  - cbn. tauto.
Defined.

(** X12.  Without NEON, [SK_OPTS_NS] names the namespace with the highest
    level that does not exceed [SK_CPU_SSE_LEVEL]. *)
Theorem opts_ns_is_best d l :
  SK_ARM_HAS_NEON d = false ->
  SK_CPU_SSE_LEVEL d = Some l ->
  0 <= l ->
  exists t,
    ns_level (SK_OPTS_NS d) = Some t /\ t <= l /\
    forall ns t', ns_level ns = Some t' -> t' <= l -> t' <= t.
Proof.
  intros Hneon Hl Hpos. unfold SK_OPTS_NS. rewrite Hneon, Hl.
  rewrite !Z.geb_leb.
  repeat match goal with
         | |- context [?a <=? ?b] => destruct (Z.leb_spec a b)
         end;
    (eexists; split; [reflexivity|]); level_constants;
    (split; [lia|]);
    intros ns t' Hns Ht'; destruct ns; cbn [ns_level] in Hns;
    try discriminate Hns; injection Hns as <-; level_constants; lia.
Qed.

Lemma opts_ns_is_best_witness :
  exists t,
    ns_level (SK_OPTS_NS ex_defs_avx2) = Some t /\ t <= 52 /\
    forall ns t', ns_level ns = Some t' -> t' <= 52 -> t' <= t.
Proof.
  apply (opts_ns_is_best ex_defs_avx2 52).
  - reflexivity.
  - reflexivity.
  - lia.
Defined.




(** X14.  With [SK_BUILD_NO_OPTS], and [SK_ARM_HAS_NEON] not defined from
    outside, [SK_OPTS_NS] is [portable] whatever the compiler's feature
    macros say. *)
Theorem no_opts_is_portable d :
  SK_BUILD_NO_OPTS d = true ->
  predefined_SK_ARM_HAS_NEON d = false ->
  SK_OPTS_NS d = portable.
Proof.
  intros Hno Hneon. unfold SK_OPTS_NS, SK_ARM_HAS_NEON, SK_CPU_SSE_LEVEL.
  rewrite Hno, Hneon. reflexivity.
Qed.

Lemma no_opts_is_portable_witness : SK_OPTS_NS ex_defs_no_opts = portable.
Proof.
  apply (no_opts_is_portable ex_defs_no_opts); reflexivity.
Defined.
